(** * The parameter mapper of utils/parameterMapper.js

    A shallow embedding of the [ParameterMapper] class and the properties of
    its mapping, conversion and extension operations.

    Conventions of the embedding.
    - A JavaScript string is a [string] of ASCII characters (code units below
      128); upper-casing of other characters is not represented.
    - Values are those the callers pass, [undefined], [null], booleans,
      numbers, strings and ordinary objects, and the [Date] objects the mapper
      creates.  A number is an integer [Z]; the mapper does no arithmetic on
      numbers, it only forwards them or hands them to the [Date] constructor.
    - An ordinary object is the list of its own enumerable properties in
      creation order.  The engine moves canonical array-index names ("0", "1",
      ...) to the front of that order; no statement below depends on the place
      of such a name.
    - Every object literal of the module has [Object.prototype] as prototype,
      so a property read that finds no own property continues there.
    - Arrays, functions, BigInt values and cyclic objects are not values of
      the embedding.
    - [console.log] and [JSON.stringify] only print.  On the values of the
      embedding [JSON.stringify] returns (it raises on a BigInt, on a cyclic
      object and where a [toJSON] function raises, and none of these is
      represented), so the two calls are left out. *)

From Stdlib Require Import String Ascii List ZArith Bool Lia.
Import ListNotations.
Local Open Scope string_scope.
Local Open Scope list_scope.

(** ** Completions: how a call ends *)

Inductive exn : Type :=
| TypeError.

(** A call returns a value, raises, or reaches a write whose target lies
    outside the own properties of the objects the call builds (a member of
    [Object.prototype], a prototype link, a property of a [Date] object).  The
    embedding does not follow such a write: the call is then marked
    [Escapes]. *)
Inductive completion (A : Type) : Type :=
| Return (a : A)
| Throw (e : exn)
| Escapes.
Arguments Return {A} a.
Arguments Throw {A} e.
Arguments Escapes {A}.

Definition bind {A B : Type} (c : completion A) (k : A -> completion B)
  : completion B :=
  match c with
  | Return a => k a
  | Throw e => Throw e
  | Escapes => Escapes
  end.

Declare Scope js_scope.
Delimit Scope js_scope with js.
Notation "x <- c ;; k" := (bind c (fun x => k))
  (at level 61, c at next level, right associativity) : js_scope.
Local Open Scope js_scope.

(** ** Values *)

Local Set Warnings "-register-all".

Inductive value : Type :=
| VUndefined
| VNull
| VBool (b : bool)
| VNumber (n : Z)
| VString (s : string)
| VObject (props : list (string * value))
| VDate (tv : option Z).     (* a Date object; [None] is the NaN time value *)

Definition object : Type := list (string * value).

(** [value === undefined || value === null] *)
Definition nullish (v : value) : bool :=
  match v with
  | VUndefined | VNull => true
  | _ => false
  end.

(** ToBoolean *)
Definition truthy (v : value) : bool :=
  match v with
  | VUndefined | VNull => false
  | VBool b => b
  | VNumber n => negb (n =? 0)%Z
  | VString s => negb (s =? "")
  | VObject _ | VDate _ => true
  end.

(** ** Property reads and writes on ordinary objects *)

(** The names every ordinary object inherits from [Object.prototype]. *)
Definition object_prototype_names : list string :=
  [ "constructor"; "hasOwnProperty"; "isPrototypeOf"; "propertyIsEnumerable";
    "toLocaleString"; "toString"; "valueOf";
    "__defineGetter__"; "__defineSetter__";
    "__lookupGetter__"; "__lookupSetter__"; "__proto__" ].

Definition inherited (k : string) : bool :=
  existsb (String.eqb k) object_prototype_names.

Fixpoint own_get {A : Type} (o : list (string * A)) (k : string) : option A :=
  match o with
  | [] => None
  | (k', a) :: rest => if k =? k' then Some a else own_get rest k
  end.

(** Define or overwrite an own data property: an existing name keeps its
    place, a new one goes last. *)
Fixpoint own_set {A : Type} (o : list (string * A)) (k : string) (a : A)
  : list (string * A) :=
  match o with
  | [] => [(k, a)]
  | (k', a') :: rest =>
      if k =? k' then (k', a) :: rest else (k', a') :: own_set rest k a
  end.

(** What [o[k]] evaluates to: the own property, else the member of
    [Object.prototype] of that name (a function, or the prototype object itself
    for "__proto__"), else [undefined]. *)
Inductive property (A : Type) : Type :=
| Own (a : A)
| Inherited
| Absent.
Arguments Own {A} a.
Arguments Inherited {A}.
Arguments Absent {A}.

Definition get {A : Type} (o : list (string * A)) (k : string) : property A :=
  match own_get o k with
  | Some a => Own a
  | None => if inherited k then Inherited else Absent
  end.

(** [o[k] = v] on an ordinary object whose prototype is [Object.prototype]:
    the name "__proto__" runs the inherited setter (it relinks the prototype or
    does nothing, and never defines a property); any other name defines or
    overwrites an own property. *)
Definition put (o : object) (k : string) (v : value) : completion object :=
  if k =? "__proto__" then
    match v with
    | VObject _ | VDate _ | VNull => Escapes
    | _ => Return o
    end
  else Return (own_set o k v).

(** The same write where the value is a string, as into the mapping table:
    the setter ignores a string. *)
Definition put_string (o : list (string * string)) (k s : string)
  : list (string * string) :=
  if k =? "__proto__" then o else own_set o k s.

(** [Object.assign(target, source)] *)
Fixpoint Object_assign (target source : object) : completion object :=
  match source with
  | [] => Return target
  | (k, v) :: rest => t <- put target k v ;; Object_assign t rest
  end.

(** ** String primitives *)

(** [s.includes(".")] *)
Fixpoint includes_dot (s : string) : bool :=
  match s with
  | EmptyString => false
  | String c r => (c =? ".")%char || includes_dot r
  end.

(** [s.split(".")] *)
Fixpoint split_dot (s : string) : list string :=
  match s with
  | EmptyString => [""]
  | String c r =>
      if (c =? ".")%char then "" :: split_dot r
      else match split_dot r with
           | h :: t => String c h :: t
           | [] => [String c ""]
           end
  end.

(** [s.charAt(0)] *)
Definition charAt0 (s : string) : string :=
  match s with
  | EmptyString => ""
  | String c _ => String c ""
  end.

(** [s.slice(1)] *)
Definition slice1 (s : string) : string :=
  match s with
  | EmptyString => ""
  | String _ r => r
  end.

(** The upper-case form of a code unit below 128: only the letters a to z
    change. *)
Definition upper_char (c : ascii) : ascii :=
  let n := nat_of_ascii c in
  if (97 <=? n)%nat && (n <=? 122)%nat then ascii_of_nat (n - 32) else c.

(** [s.toUpperCase()] *)
Fixpoint toUpperCase (s : string) : string :=
  match s with
  | EmptyString => ""
  | String c r => String (upper_char c) (toUpperCase r)
  end.

(** ** A host date parser for running examples

    [Date.parse] belongs to the host.  The mapper is embedded over an arbitrary
    parser; this one accepts exactly the calendar dates [YYYY-MM-DD] of the
    standard date-time format that name an existing day, read as midnight UTC,
    and rejects every other string. *)

Definition digit (c : ascii) : option Z :=
  let n := Z.of_nat (nat_of_ascii c) in
  if ((48 <=? n) && (n <=? 57))%Z then Some (n - 48)%Z else None.

Definition leap (y : Z) : bool :=
  ((y mod 4 =? 0) && (negb (y mod 100 =? 0) || (y mod 400 =? 0)))%Z.

Definition days_in_month (y m : Z) : Z :=
  if (m =? 2)%Z then (if leap y then 29 else 28)%Z
  else if ((m =? 4) || (m =? 6) || (m =? 9) || (m =? 11))%Z then 30%Z
  else 31%Z.

(** Days from 1970-01-01 to the civil date [y]-[m]-[d]. *)
Definition days_from_civil (y m d : Z) : Z :=
  let y' := (if m <=? 2 then y - 1 else y)%Z in
  let era := (y' / 400)%Z in
  let yoe := (y' - era * 400)%Z in
  let mp := ((m + 9) mod 12)%Z in
  let doy := ((153 * mp + 2) / 5 + d - 1)%Z in
  let doe := (yoe * 365 + yoe / 4 - yoe / 100 + doy)%Z in
  (era * 146097 + doe - 719468)%Z.

Definition Date_parse_ymd (s : string) : option Z :=
  match s with
  | String y1 (String y2 (String y3 (String y4 (String "-"
      (String m1 (String m2 (String "-" (String d1 (String d2 EmptyString))))))))) =>
      match digit y1, digit y2, digit y3, digit y4,
            digit m1, digit m2, digit d1, digit d2 with
      | Some a, Some b, Some c, Some d, Some e, Some f, Some g, Some h =>
          let y := (a * 1000 + b * 100 + c * 10 + d)%Z in
          let m := (e * 10 + f)%Z in
          let dd := (g * 10 + h)%Z in
          if ((1 <=? m) && (m <=? 12) && (1 <=? dd) && (dd <=? days_in_month y m))%Z
          then Some (days_from_civil y m dd * 86400000)%Z
          else None
      | _, _, _, _, _, _, _, _ => None
      end
  | _ => None
  end.

(** ** The mapper *)

(** The fields of a [ParameterMapper] instance. *)
Record ParameterMapper : Type := {
  knownMappings : list (string * string);
  dateParameters : list string;
  booleanParameters : list string
}.

(** An object literal defines its properties from left to right; a name
    written twice keeps its first place and its last value. *)
Definition object_literal {A : Type} (entries : list (string * A))
  : list (string * A) :=
  fold_left (fun o kv => own_set o (fst kv) (snd kv)) entries [].

(** [new ParameterMapper()], the instance the module exports. *)
Definition new_ParameterMapper : ParameterMapper := {|
  knownMappings := object_literal [
      ("bucketName", "Bucket");
      ("fileName", "Key");
      ("fileContent", "Body");
      ("objectLockEnabledForBucket", "ObjectLockEnabledForBucket");
      ("acl", "ACL");
      ("locationConstraint", "CreateBucketConfiguration.LocationConstraint");
      ("objectOwnership", "ObjectOwnership");
      ("ifMatch", "IfMatch");
      ("ifModifiedSince", "IfModifiedSince");
      ("ifNoneMatch", "IfNoneMatch");
      ("ifUnmodifiedSince", "IfUnmodifiedSince");
      ("range", "Range");
      ("responseCacheControl", "ResponseCacheControl");
      ("responseContentType", "ResponseContentType");
      ("responseContentDisposition", "ResponseContentDisposition");
      ("responseContentEncoding", "ResponseContentEncoding");
      ("responseContentLanguage", "ResponseContentLanguage");
      ("responseExpires", "ResponseExpires");
      ("versionId", "VersionId");
      ("sseCustomerAlgorithm", "SSECustomerAlgorithm");
      ("sseCustomerKey", "SSECustomerKey");
      ("sseCustomerKeyMD5", "SSECustomerKeyMD5");
      ("requestPayer", "RequestPayer");
      ("partNumber", "PartNumber");
      ("expectedBucketOwner", "ExpectedBucketOwner");
      ("checksumMode", "ChecksumMode");
      ("cacheControl", "CacheControl");
      ("contentDisposition", "ContentDisposition");
      ("contentEncoding", "ContentEncoding");
      ("contentLanguage", "ContentLanguage");
      ("contentLength", "ContentLength");
      ("contentMD5", "ContentMD5");
      ("contentType", "ContentType");
      ("checksumAlgorithm", "ChecksumAlgorithm");
      ("checksumCRC32", "ChecksumCRC32");
      ("checksumCRC32C", "ChecksumCRC32C");
      ("checksumSHA1", "ChecksumSHA1");
      ("checksumSHA256", "ChecksumSHA256");
      ("expires", "Expires");
      ("ifNoneMatch", "IfNoneMatch");
      ("grantFullControl", "GrantFullControl");
      ("grantRead", "GrantRead");
      ("grantReadACP", "GrantReadACP");
      ("grantWriteACP", "GrantWriteACP");
      ("metadata", "Metadata");
      ("serverSideEncryption", "ServerSideEncryption");
      ("storageClass", "StorageClass");
      ("websiteRedirectLocation", "WebsiteRedirectLocation");
      ("sseKMSKeyId", "SSEKMSKeyId");
      ("sseKMSEncryptionContext", "SSEKMSEncryptionContext");
      ("bucketKeyEnabled", "BucketKeyEnabled");
      ("tagging", "Tagging");
      ("objectLockMode", "ObjectLockMode");
      ("objectLockRetainUntilDate", "ObjectLockRetainUntilDate");
      ("objectLockLegalHoldStatus", "ObjectLockLegalHoldStatus");
      ("maxBuckets", "MaxBuckets");
      ("continuationToken", "ContinuationToken");
      ("prefix", "Prefix");
      ("bucketRegion", "BucketRegion");
      ("mfa", "MFA");
      ("bypassGovernanceRetention", "BypassGovernanceRetention") ];
  dateParameters :=
    [ "IfModifiedSince"; "IfUnmodifiedSince"; "ResponseExpires"; "Expires";
      "ObjectLockRetainUntilDate" ];
  booleanParameters := [ "ObjectLockEnabledForBucket"; "BucketKeyEnabled" ]
|}.

(** [array.includes(key)] on an array of strings *)
Definition Array_includes (a : list string) (key : string) : bool :=
  existsb (String.eqb key) a.

(** [smartCaseConversion]:
    [camelCaseKey.charAt(0).toUpperCase() + camelCaseKey.slice(1)] *)
Definition smartCaseConversion (camelCaseKey : string) : string :=
  toUpperCase (charAt0 camelCaseKey) ++ slice1 camelCaseKey.

(** [v === s] for a string literal [s] *)
Definition is_string (v : value) (s : string) : bool :=
  match v with
  | VString s' => s' =? s
  | _ => false
  end.

(** [addMapping(camelCase, pascalCase, type = null)]; the new state of the
    instance is returned in place of the mutation. *)
Definition addMapping (this : ParameterMapper)
    (camelCase pascalCase : string) (type : value) : ParameterMapper :=
  let known := put_string (knownMappings this) camelCase pascalCase in
  if is_string type "date" then
    {| knownMappings := known;
       dateParameters := dateParameters this ++ [pascalCase];
       booleanParameters := booleanParameters this |}
  else if is_string type "boolean" then
    {| knownMappings := known;
       dateParameters := dateParameters this;
       booleanParameters := booleanParameters this ++ [pascalCase] |}
  else
    {| knownMappings := known;
       dateParameters := dateParameters this;
       booleanParameters := booleanParameters this |}.

(** [value === true || value === "true"] *)
Definition is_true_or_true_string (v : value) : bool :=
  match v with
  | VBool b => b
  | VString s => s =? "true"
  | _ => false
  end.

Section Mapper.

(** The host's [Date.parse]: the time value in milliseconds, [None] for NaN. *)
Variable Date_parse : string -> option Z.

Definition TimeClip (t : Z) : option Z :=
  if (Z.abs t <=? 8640000000000000)%Z then Some t else None.

(** ToPrimitive.  An ordinary object first tries [valueOf], which is either
    the inherited one (it returns the object itself, not a primitive) or an own
    data property (not callable), then [toString]: the inherited one gives
    "[object Object]", an own data property of that name is not callable and
    the conversion fails. *)
Definition ToPrimitive (v : value) : completion value :=
  match v with
  | VObject props =>
      match own_get props "toString" with
      | Some _ => Throw TypeError
      | None => Return (VString "[object Object]")
      end
  | _ => Return v
  end.

(** ToNumber on a primitive that is not a string. *)
Definition ToNumber (p : value) : option Z :=
  match p with
  | VNull => Some 0%Z
  | VBool b => Some (if b then 1 else 0)%Z
  | VNumber n => Some n
  | _ => None
  end.

(** [new Date(value)] *)
Definition new_Date (v : value) : completion value :=
  match v with
  | VDate tv => Return (VDate tv)
  | _ =>
      p <- ToPrimitive v ;;
      let tv := match p with
                | VString s => Date_parse s
                | _ => ToNumber p
                end in
      Return (VDate (match tv with Some t => TimeClip t | None => None end))
  end.

Variable this : ParameterMapper.

(** [convertType(key, value)] *)
Definition convertType (key : string) (v : value) : completion value :=
  if Array_includes (dateParameters this) key then new_Date v
  else if Array_includes (booleanParameters this) key then
    Return (VBool (is_true_or_true_string v))
  else Return v.

(** [result[parent][child] = value], in strict mode (a class body). *)
Definition put_member (result : object) (parent child : string) (v : value)
  : completion object :=
  match get result parent with
  | Own (VObject props) =>
      inner <- put props child v ;;
      Return (own_set result parent (VObject inner))
  | Own (VDate _) => Escapes
  | Own (VUndefined | VNull) => Throw TypeError
  | Own _ =>
      (* a primitive: only the inherited "__proto__" setter accepts the write *)
      if child =? "__proto__" then Return result else Throw TypeError
  | Inherited => Escapes
  | Absent => Throw TypeError
  end.

(** [handleNestedParameter(result, mappedKey, value)]; the new [result] is
    returned in place of the mutation. *)
Definition handleNestedParameter (result : object) (mappedKey : string)
    (v : value) : completion object :=
  match split_dot mappedKey with
  | [parent; child] =>
      r <- (match get result parent with
            | Own cur =>
                if truthy cur then Return result
                else put result parent (VObject [])
            | Inherited => Return result
            | Absent => put result parent (VObject [])
            end) ;;
      put_member r parent child v
  | _ => Return result
  end.

(** One turn of the loop over [Object.entries(inputParams)], on the pair of
    [result] and [unmappedParams]. *)
Definition mapParameters_step (acc : object * object) (entry : string * value)
  : completion (object * object) :=
  let (result, unmappedParams) := acc in
  let (key, v) := entry in
  if nullish v then Return acc
  else
    let fallback :=
      unmapped <- put unmappedParams (smartCaseConversion key) v ;;
      Return (result, unmapped) in
    match get (knownMappings this) key with
    | Own mappedKey =>
        if negb (mappedKey =? "") then
          if includes_dot mappedKey then
            r <- handleNestedParameter result mappedKey v ;;
            Return (r, unmappedParams)
          else
            c <- convertType mappedKey v ;;
            r <- put result mappedKey c ;;
            Return (r, unmappedParams)
        else fallback
    | Inherited => Throw TypeError    (* [mappedKey.includes] is not a function *)
    | Absent => fallback
    end.

Fixpoint mapParameters_loop (acc : object * object)
    (entries : list (string * value)) : completion (object * object) :=
  match entries with
  | [] => Return acc
  | entry :: rest =>
      acc' <- mapParameters_step acc entry ;;
      mapParameters_loop acc' rest
  end.

(** [mapParameters(inputParams)]; [inputParams] is given by its entries in
    the order of [Object.entries]. *)
Definition mapParameters (inputParams : object) : completion object :=
  acc <- mapParameters_loop ([], []) inputParams ;;
  Object_assign (fst acc) (snd acc).

End Mapper.


(** The invariant of the conversion registry: no target key is registered both
    as date-valued and as boolean-valued. *)
Definition registry_disjoint (this : ParameterMapper) : Prop :=
  forall key, In key (dateParameters this) ->
              In key (booleanParameters this) -> False.

(** The keys the loop sends to the fallback conversion: [knownMappings[key]]
    is [undefined] or the empty string. *)
Definition falls_back (this : ParameterMapper) (key : string) : bool :=
  match get (knownMappings this) key with
  | Own mappedKey => mappedKey =? ""
  | Inherited => false
  | Absent => true
  end.

(** What holds of every target in the constructor's table: it is a non-empty
    ordinary name, and the only dotted one is the two-segment target. *)
Definition plain_target (mappedKey : string) : bool :=
  negb (mappedKey =? "") && negb (mappedKey =? "__proto__")
  && (negb (includes_dot mappedKey)
      || (mappedKey =? "CreateBucketConfiguration.LocationConstraint")).


(** ** Writes into an object

    [written W o o'] holds when [o'] is [o] after a series of property
    definitions [K: c], each allowed by [W]. *)
Inductive written (W : string -> value -> Prop) : object -> object -> Prop :=
| written_refl o : written W o o
| written_set o o' K c :
    written W o o' -> W K c -> written W o (own_set o' K c).

(** What the loop may write into [result] for the input entry [k: v]: the
    converted value under a flat target, or an object under the parent of a
    two-segment target. *)
Definition known_write (Date_parse : string -> option Z)
    (this : ParameterMapper) (k : string) (v : value)
    (K : string) (c : value) : Prop :=
  nullish v = false /\
  exists mappedKey,
    get (knownMappings this) k = Own mappedKey /\ mappedKey <> "" /\
    ((includes_dot mappedKey = false /\ K = mappedKey
      /\ convertType Date_parse this mappedKey v = Return c)
     \/ (exists child inner,
           split_dot mappedKey = [K; child] /\ c = VObject inner)).

(** What the loop may write into [unmappedParams] for the input entry
    [k: v]. *)
Definition fallback_write (this : ParameterMapper) (k : string) (v : value)
    (K : string) (c : value) : Prop :=
  nullish v = false /\ falls_back this k = true
  /\ K = smartCaseConversion k /\ c = v.

(** [K: c] comes from some entry of [input]. *)
Definition derived_entry (Date_parse : string -> option Z)
    (this : ParameterMapper) (input : object) (K : string) (c : value) : Prop :=
  exists k v, In (k, v) input
              /\ (known_write Date_parse this k v K c
                  \/ fallback_write this k v K c).

(** ['a' <= c <= 'z'] *)
Definition is_lower (c : ascii) : bool :=
  let n := nat_of_ascii c in (97 <=? n)%nat && (n <=? 122)%nat.

(** A key the exported mapper sends through unchanged: it is neither an
    entry of the table nor a member name of [Object.prototype], and
    capitalising it changes nothing. *)
Definition passes_unchanged (K : string) : bool :=
  match get (knownMappings new_ParameterMapper) K with
  | Absent => smartCaseConversion K =? K
  | _ => false
  end.

(** An entry the exported mapper handles without raising: the value is
    null, or the key names no member of [Object.prototype] and the value is
    not an object with an own [toString] property. *)
Definition safe_entry (entry : string * value) : Prop :=
  nullish (snd entry) = true
  \/ (inherited (fst entry) = false
      /\ forall props, snd entry = VObject props ->
                       own_get props "toString" = None).

(** A series of [addMapping] calls, each given by its three arguments. *)
Definition addMappings (this : ParameterMapper)
    (calls : list (string * string * value)) : ParameterMapper :=
  fold_left (fun s call =>
               addMapping s (fst (fst call)) (snd (fst call)) (snd call))
            calls this.

(** ** The tools that call the mapper *)

(** [o.name] for a name that [Object.prototype] does not define: the own
    property, else [undefined]. *)
Definition member (o : object) (name : string) : value :=
  match own_get o name with
  | Some v => v
  | None => VUndefined
  end.

(** [a || b] *)
Definition js_or (a b : value) : value := if truthy a then a else b.

(** [delete o[k]] *)
Definition own_delete {A : Type} (o : list (string * A)) (k : string)
  : list (string * A) :=
  filter (fun kv => negb (fst kv =? k)) o.

(** [{...target, ...source}]: the own properties of [source] are defined on
    [target] one after the other. *)
Definition spread {A : Type} (target source : list (string * A))
  : list (string * A) :=
  fold_left (fun o kv => own_set o (fst kv) (snd kv)) source target.

(** What a tool does before it awaits the storage service: it answers itself
    with an error message, or it builds the parameters of the command. *)
Inductive tool_request : Type :=
| Rejected (message : string)
| Command (commandParams : object).

Section Tools.

Variable Date_parse : string -> option Z.

(** [deleteBucket(params)] up to [new DeleteBucketCommand(commandParams)];
    [createBucket] starts in the same way. *)
Definition deleteBucket_request (params : object) : completion tool_request :=
  if negb (truthy (member params "bucketName")) then
    Return (Rejected
              "Error: bucketName is required. Please provide a bucket name.")
  else
    commandParams <- mapParameters Date_parse new_ParameterMapper params ;;
    Return (Command commandParams).

(** [getObject(params)] up to [new GetObjectCommand(commandParams)];
    [deleteObject] starts in the same way. *)
Definition getObject_request (params : object) : completion tool_request :=
  if negb (truthy (member params "bucketName"))
     || negb (truthy (member params "fileName")) then
    Return (Rejected "Error: bucketName and fileName are required.")
  else
    commandParams <- mapParameters Date_parse new_ParameterMapper params ;;
    Return (Command commandParams).

(** The [uploadParams] of [uploadSingleFile(params)]; [basename] is
    [path.basename(params.filePath)], [content] and [contentType] are those of
    the file that was read. *)
Definition uploadSingleFile_uploadParams (params : object)
    (basename content contentType : string) : object :=
  let s3Key :=
    js_or (member params "s3Key")
          (js_or (member params "fileName") (VString basename)) in
  let uploadParams :=
    spread [ ("bucketName", member params "bucketName");
             ("fileName", s3Key);
             ("fileContent", VString content);
             ("contentType", VString contentType) ]
           params in
  own_delete (own_delete uploadParams "filePath") "s3Key".

(** The [commandParams] of [uploadSingleFile(params)] as the mapper returns
    them, before [Body] is set. *)
Definition uploadSingleFile_commandParams (params : object)
    (basename content contentType : string) : completion object :=
  mapParameters Date_parse new_ParameterMapper
    (uploadSingleFile_uploadParams params basename content contentType).

End Tools.

(** ** File types *)

(** The lower-case form of a code unit below 128: only the letters A to Z
    change. *)
Definition lower_char (c : ascii) : ascii :=
  let n := nat_of_ascii c in
  if (65 <=? n)%nat && (n <=? 90)%nat then ascii_of_nat (n + 32) else c.

(** [s.toLowerCase()] *)
Fixpoint toLowerCase (s : string) : string :=
  match s with
  | EmptyString => ""
  | String c r => String (lower_char c) (toLowerCase r)
  end.

(** [s.startsWith(p)] *)
Fixpoint startsWith (s p : string) : bool :=
  match p, s with
  | EmptyString, _ => true
  | String a p', String b s' => (a =? b)%char && startsWith s' p'
  | String _ _, EmptyString => false
  end.

Definition textContentTypes : list string :=
  [
    "text/"; "application/json"; "application/xml"; "application/javascript";
    "application/x-yaml"; "application/yaml"; "application/sql";
    "application/x-sh" ].

Definition textExtensions : list string :=
  [
    ".txt"; ".csv"; ".tsv"; ".json"; ".xml"; ".html"; ".htm"; ".css"; ".js";
    ".ts"; ".jsx"; ".tsx"; ".vue"; ".svelte"; ".md"; ".markdown"; ".rst";
    ".yaml"; ".yml"; ".toml"; ".log"; ".sql"; ".sh"; ".bash"; ".zsh";
    ".fish"; ".py"; ".java"; ".c"; ".cpp"; ".h"; ".hpp"; ".go"; ".rs"; ".rb";
    ".php"; ".pl"; ".r"; ".m"; ".swift"; ".kt"; ".scala"; ".env"; ".config";
    ".conf"; ".cfg"; ".ini"; ".properties"; ".gitignore"; ".dockerfile";
    ".editorconfig"; ".htaccess"; ".bat"; ".cmd"; ".ps1"; ".awk"; ".sed";
    ".vim" ].

Definition imageContentTypes : list string :=
  [
    "image/jpeg"; "image/jpg"; "image/png"; "image/gif"; "image/webp";
    "image/svg+xml"; "image/bmp" ].

Definition imageExtensions : list string :=
  [
    ".jpg"; ".jpeg"; ".png"; ".gif"; ".webp"; ".svg"; ".bmp" ].

Definition documentContentTypes : list string :=
  [
    "application/pdf"; "application/msword";
    "application/vnd.openxmlformats-officedocument.wordprocessingml.document";
    "application/vnd.ms-excel";
    "application/vnd.openxmlformats-officedocument.spreadsheetml.sheet";
    "application/vnd.ms-powerpoint";
    "application/vnd.openxmlformats-officedocument.presentationml.presentation" ].

Definition documentExtensions : list string :=
  [
    ".pdf"; ".doc"; ".docx"; ".xls"; ".xlsx"; ".ppt"; ".pptx"; ".odt";
    ".ods"; ".odp"; ".rtf" ].

(** [determineFileType(contentType, fileExtension)] of tools/getObject.js *)
Definition determineFileType (contentType fileExtension : string) : string :=
  let lowerContentType := toLowerCase contentType in
  let lowerExtension := toLowerCase fileExtension in
  if existsb (fun type => startsWith lowerContentType type) textContentTypes
     || Array_includes textExtensions lowerExtension then "text"
  else if Array_includes imageContentTypes lowerContentType
          || Array_includes imageExtensions lowerExtension then "image"
  else if Array_includes documentContentTypes lowerContentType
          || Array_includes documentExtensions lowerExtension then "document"
  else "binary".

(** The [encoding] that [getObject] answers with for a file type. *)
Definition getObject_encoding (fileType : string) : string :=
  if fileType =? "text" then "utf8" else "base64".

(** The [binaryExtensions] of [FileSystemUtils.readFile] *)
Definition binaryExtensions : list string :=
  [
    ".jpg"; ".jpeg"; ".png"; ".gif"; ".bmp"; ".webp"; ".svg"; ".pdf"; ".doc";
    ".docx"; ".xls"; ".xlsx"; ".ppt"; ".pptx"; ".zip"; ".rar"; ".tar"; ".gz";
    ".7z"; ".mp3"; ".wav"; ".mp4"; ".avi"; ".mov"; ".exe"; ".bin"; ".dll";
    ".so" ].

(** The [contentTypes] table of [FileSystemUtils.getContentType] *)
Definition contentTypes : list (string * string) :=
  object_literal [
    (".txt", "text/plain");
    (".csv", "text/csv");
    (".json", "application/json");
    (".xml", "application/xml");
    (".html", "text/html");
    (".css", "text/css");
    (".js", "application/javascript");
    (".md", "text/markdown");
    (".jpg", "image/jpeg");
    (".jpeg", "image/jpeg");
    (".png", "image/png");
    (".gif", "image/gif");
    (".bmp", "image/bmp");
    (".webp", "image/webp");
    (".svg", "image/svg+xml");
    (".pdf", "application/pdf");
    (".doc", "application/msword");
    (".docx", "application/vnd.openxmlformats-officedocument.wordprocessingml.document");
    (".xls", "application/vnd.ms-excel");
    (".xlsx", "application/vnd.openxmlformats-officedocument.spreadsheetml.sheet");
    (".zip", "application/zip");
    (".tar", "application/x-tar");
    (".gz", "application/gzip");
    (".mp3", "audio/mpeg");
    (".wav", "audio/wav");
    (".mp4", "video/mp4");
    (".avi", "video/x-msvideo") ].

(** What a table read or default gives: a string, or the member of
    [Object.prototype] that the name inherits. *)
Inductive table_value : Type :=
| TString (s : string)
| TInherited.

(** [getContentType(ext)]: [contentTypes[ext] || "application/octet-stream"] *)
Definition getContentType (ext : string) : table_value :=
  match get contentTypes ext with
  | Own s => if s =? "" then TString "application/octet-stream" else TString s
  | Inherited => TInherited
  | Absent => TString "application/octet-stream"
  end.

(** The [isBinary], [contentType] and [encoding] that
    [FileSystemUtils.readFile] answers with for a file whose lower-cased
    extension is [ext]. *)
Definition readFile_isBinary (ext : string) : bool :=
  Array_includes binaryExtensions ext.

Definition readFile_contentType (ext : string) : table_value :=
  if readFile_isBinary ext then getContentType ext
  else match getContentType ext with
       | TString s => if s =? "" then TString "text/plain" else TString s
       | TInherited => TInherited
       end.

Definition readFile_encoding (ext : string) : string :=
  if readFile_isBinary ext then "base64" else "utf8".

(** The [contentPreview] that the tool [readFile] answers with:
    [content.length > 500 ? content.substring(0, 500) + "...[truncated]"
                          : content] *)
Definition readFile_contentPreview (content : string) : string :=
  if (500 <? String.length content)%nat
  then (substring 0 500 content ++ "...[truncated]")%string
  else content.

(** ** The domain of the case conversions

    [upper_char] and [lower_char] are [toUpperCase] and [toLowerCase] on the
    code units below 128; the engine also maps letters outside that range.
    A statement with an [is_ascii] or [ascii_keys] hypothesis is made for
    strings of such code units. *)
Definition is_ascii_char (c : ascii) : bool := (nat_of_ascii c <? 128)%nat.

Fixpoint is_ascii (s : string) : bool :=
  match s with
  | EmptyString => true
  | String c r => is_ascii_char c && is_ascii r
  end.

(** The keys of an object are strings of code units below 128. *)
Definition ascii_keys (o : object) : Prop :=
  forall k v, In (k, v) o -> is_ascii k = true.


(** * Runs of the exported mapper *)

Example run_createBucket :
  mapParameters Date_parse_ymd new_ParameterMapper
    [("bucketName", VString "logs"); ("acl", VString "private");
     ("locationConstraint", VString "eu-west-1");
     ("objectLockEnabledForBucket", VString "true")]
  = Return
      [("Bucket", VString "logs"); ("ACL", VString "private");
       ("CreateBucketConfiguration",
        VObject [("LocationConstraint", VString "eu-west-1")]);
       ("ObjectLockEnabledForBucket", VBool true)].
Proof. reflexivity. Qed.

Example run_date :
  convertType Date_parse_ymd new_ParameterMapper "Expires" (VString "2024-01-01")
  = Return (VDate (Some 1704067200000%Z)).
Proof. reflexivity. Qed.

Example run_date_object_with_toString :
  mapParameters Date_parse_ymd new_ParameterMapper
    [("expires", VObject [("toString", VString "tomorrow")])]
  = Throw TypeError.
Proof. reflexivity. Qed.

Example run_unknown_and_null :
  mapParameters Date_parse_ymd new_ParameterMapper
    [("customFlag", VNumber 0); ("prefix", VNull); ("someHttpHeader", VString "h")]
  = Return [("CustomFlag", VNumber 0); ("SomeHttpHeader", VString "h")].
Proof. reflexivity. Qed.

(** * Properties *)

(** ** Own properties *)

Lemma own_get_own_set_same {A : Type} (o : list (string * A)) k a :
  own_get (own_set o k a) k = Some a.
Proof.
  induction o as [|[k' a'] o IH]; simpl.
  - now rewrite String.eqb_refl.
  - destruct (k =? k') eqn:E; simpl; rewrite E; auto.
Qed.

Lemma own_get_own_set_other {A : Type} (o : list (string * A)) k a k' :
  k' <> k -> own_get (own_set o k a) k' = own_get o k'.
Proof.
  intros Hne. induction o as [|[k0 a0] o IH]; simpl.
  - apply String.eqb_neq in Hne. now rewrite Hne.
  - destruct (k =? k0) eqn:E; simpl.
    + apply String.eqb_eq in E. subst k0.
      apply String.eqb_neq in Hne. now rewrite Hne.
    + now rewrite IH.
Qed.

Lemma own_get_In {A : Type} (o : list (string * A)) k a :
  own_get o k = Some a -> In (k, a) o.
Proof.
  induction o as [|[k' a'] o IH]; simpl; [discriminate|].
  destruct (k =? k') eqn:E.
  - apply String.eqb_eq in E. intros [= ->]. subst. now left.
  - intros H. right. auto.
Qed.

Lemma In_own_set {A : Type} (o : list (string * A)) k a k' a' :
  In (k', a') (own_set o k a) -> (k' = k /\ a' = a) \/ In (k', a') o.
Proof.
  induction o as [|[k0 a0] o IH]; simpl.
  - intros [[= <- <-]|[]]. now left.
  - destruct (k =? k0) eqn:E; simpl.
    + apply String.eqb_eq in E. subst k0.
      intros [[= <- <-]|H]; [now left | right; now right].
    + intros [H|H]; [right; now left|].
      destruct (IH H) as [?|?]; [now left | right; now right].
Qed.

Lemma own_set_In {A : Type} (o : list (string * A)) k a :
  In (k, a) (own_set o k a).
Proof.
  induction o as [|[k0 a0] o IH]; simpl; [now left|].
  destruct (k =? k0) eqn:E; simpl.
  - apply String.eqb_eq in E. subst. now left.
  - now right.
Qed.

Lemma own_set_keeps_key {A : Type} (o : list (string * A)) k a k' a' :
  In (k', a') o -> exists a'', In (k', a'') (own_set o k a).
Proof.
  induction o as [|[k0 a0] o IH]; simpl; [tauto|].
  intros [[= -> ->]|H].
  - destruct (k =? k') eqn:E; simpl.
    + exists a. now left.
    + exists a'. now left.
  - destruct (IH H) as [a'' Ha''].
    destruct (k =? k0); simpl.
    + exists a'. now right.
    + exists a''. now right.
Qed.

Lemma Array_includes_In (a : list string) key :
  Array_includes a key = true <-> In key a.
Proof.
  unfold Array_includes. rewrite existsb_exists. split.
  - intros [x [Hx E]]. apply String.eqb_eq in E. now subst.
  - intros H. exists key. split; [assumption | apply String.eqb_refl].
Qed.

Lemma Array_includes_app (a : list string) key x :
  Array_includes (a ++ [x]) key = Array_includes a key || (key =? x).
Proof.
  unfold Array_includes. rewrite existsb_app. simpl. now rewrite orb_false_r.
Qed.

Lemma inherited_proto : forall k, inherited k = false -> k <> "__proto__".
Proof. intros k H ->. discriminate H. Qed.

Lemma get_Absent_inv {A : Type} (o : list (string * A)) k :
  get o k = Absent -> own_get o k = None /\ inherited k = false.
Proof.
  unfold get. destruct (own_get o k); [discriminate|].
  destruct (inherited k); [discriminate|]. auto.
Qed.

Lemma get_empty (k : string) :
  inherited k = false -> get (@nil (string * value)) k = Absent.
Proof. unfold get. simpl. now intros ->. Qed.

Lemma put_ordinary (o : object) k v :
  k <> "__proto__" -> put o k v = Return (own_set o k v).
Proof. intros H. unfold put. apply String.eqb_neq in H. now rewrite H. Qed.

(** ** Strings *)

Lemma includes_dot_nonempty s : includes_dot s = true -> s <> "".
Proof. now destruct s. Qed.

Lemma split_dot_no_dot s : includes_dot s = false -> split_dot s = [s].
Proof.
  induction s as [|c r IH]; simpl; [reflexivity|].
  intros H. apply orb_false_elim in H as [Hc Hr].
  rewrite Hc, (IH Hr). reflexivity.
Qed.

Lemma split_dot_two (P C : string) :
  includes_dot P = false -> includes_dot C = false ->
  split_dot (P ++ "." ++ C) = [P; C].
Proof.
  intros HP HC. induction P as [|c r IH]; simpl.
  - now rewrite (split_dot_no_dot _ HC).
  - simpl in HP. apply orb_false_elim in HP as [Hc Hr].
    rewrite Hc. simpl in IH. now rewrite (IH Hr).
Qed.

Lemma includes_dot_two (P C : string) : includes_dot (P ++ "." ++ C) = true.
Proof.
  induction P as [|c r IH]; simpl; [reflexivity|].
  simpl in IH. rewrite IH. apply orb_true_r.
Qed.

Lemma upper_char_underscore (c : ascii) : upper_char c = "_"%char -> c = "_"%char.
Proof.
  destruct c as [[] [] [] [] [] [] [] []]; vm_compute; intros H;
    first [reflexivity | discriminate H].
Qed.

Lemma smartCaseConversion_cons (c : ascii) (r : string) :
  smartCaseConversion (String c r) = String (upper_char c) r.
Proof. reflexivity. Qed.

Lemma smartCaseConversion_proto (k : string) :
  smartCaseConversion k = "__proto__" -> k = "__proto__".
Proof.
  destruct k as [|c r]; [discriminate|].
  rewrite smartCaseConversion_cons. intros [= Hc ->].
  now rewrite (upper_char_underscore _ Hc).
Qed.

Section Properties.

Variable Date_parse : string -> option Z.

(** ** The loop *)

Lemma mapParameters_loop_app this acc (l1 l2 : list (string * value)) :
  mapParameters_loop Date_parse this acc (l1 ++ l2) =
  (acc' <- mapParameters_loop Date_parse this acc l1 ;;
   mapParameters_loop Date_parse this acc' l2).
Proof.
  revert acc. induction l1 as [|e l1 IH]; intros acc; simpl; [reflexivity|].
  destruct (mapParameters_step Date_parse this acc e); simpl; auto.
Qed.

Lemma mapParameters_cons this e rest :
  mapParameters Date_parse this (e :: rest) =
  (acc <- mapParameters_step Date_parse this ([], []) e ;;
   acc' <- mapParameters_loop Date_parse this acc rest ;;
   Object_assign (fst acc') (snd acc')).
Proof.
  unfold mapParameters. cbn [mapParameters_loop].
  destruct (mapParameters_step Date_parse this ([], []) e); reflexivity.
Qed.


(** An entry that leaves the accumulators as they are can be removed from
    the input. *)
Lemma mapParameters_skip this pre e post :
  (forall acc, mapParameters_step Date_parse this acc e = Return acc) ->
  mapParameters Date_parse this (pre ++ e :: post)
  = mapParameters Date_parse this (pre ++ post).
Proof.
  intros H. unfold mapParameters.
  rewrite !mapParameters_loop_app.
  destruct (mapParameters_loop Date_parse this ([], []) pre) as [acc| |];
    simpl; auto.
  now rewrite H.
Qed.

(** The constructor's table has no name of [Object.prototype] as own key. *)
Lemma new_ParameterMapper_no_inherited_key k :
  inherited k = true -> get (knownMappings new_ParameterMapper) k = Inherited.
Proof.
  intros H. unfold get. rewrite H.
  unfold inherited in H. apply existsb_exists in H as [x [Hx E]].
  apply String.eqb_eq in E. subst x.
  repeat (destruct Hx as [<-|Hx]; [reflexivity|]). destruct Hx.
Qed.

Lemma new_ParameterMapper_targets k mappedKey :
  get (knownMappings new_ParameterMapper) k = Own mappedKey ->
  plain_target mappedKey = true.
Proof.
  unfold get. destruct (own_get _ k) as [m|] eqn:E.
  - intros [= ->]. apply own_get_In in E.
    assert (F : forallb (fun kv => plain_target (snd kv))
                  (knownMappings new_ParameterMapper) = true)
      by (vm_compute; reflexivity).
    rewrite forallb_forall in F. apply (F _ E).
  - destruct (inherited k); discriminate.
Qed.

Lemma handleNestedParameter_fresh (P C : string) v :
  includes_dot P = false -> includes_dot C = false ->
  inherited P = false -> C <> "__proto__" ->
  handleNestedParameter [] (P ++ "." ++ C) v = Return [(P, VObject [(C, v)])].
Proof.
  intros HP HC HiP HCp. unfold handleNestedParameter.
  rewrite (split_dot_two _ _ HP HC), (get_empty _ HiP).
  rewrite (put_ordinary _ _ _ (inherited_proto _ HiP)).
  cbn [bind own_set]. unfold put_member, get. cbn [own_get].
  rewrite String.eqb_refl, (put_ordinary _ _ _ HCp).
  cbn [bind own_set]. now rewrite String.eqb_refl.
Qed.

Lemma mapParameters_singleton_dotted this k mappedKey v :
  get (knownMappings this) k = Own mappedKey ->
  includes_dot mappedKey = true -> nullish v = false ->
  mapParameters Date_parse this [(k, v)] = handleNestedParameter [] mappedKey v.
Proof.
  intros Hget Hdot Hv. rewrite mapParameters_cons. unfold mapParameters_step.
  rewrite Hv, Hget.
  pose proof (includes_dot_nonempty _ Hdot) as Hne.
  apply String.eqb_neq in Hne. rewrite Hne, Hdot. cbn [negb].
  destruct (handleNestedParameter [] mappedKey v); reflexivity.
Qed.

(** ** One-entry inputs *)


Lemma mapParameters_singleton_fallback this k v :
  get (knownMappings this) k = Absent -> nullish v = false ->
  mapParameters Date_parse this [(k, v)] = Return [(smartCaseConversion k, v)].
Proof.
  intros Hget Hv. rewrite mapParameters_cons. unfold mapParameters_step.
  rewrite Hv, Hget.
  assert (Hp : smartCaseConversion k <> "__proto__").
  { intros E. apply smartCaseConversion_proto in E. subst k.
    apply get_Absent_inv in Hget as [_ Hi]. discriminate Hi. }
  rewrite (put_ordinary _ _ _ Hp).
  cbn [bind own_set mapParameters_loop fst snd Object_assign].
  now rewrite (put_ordinary _ _ _ Hp).
Qed.

Lemma mapParameters_singleton_flat this k mappedKey v :
  get (knownMappings this) k = Own mappedKey ->
  mappedKey <> "" -> includes_dot mappedKey = false ->
  mappedKey <> "__proto__" -> nullish v = false ->
  mapParameters Date_parse this [(k, v)] =
  (c <- convertType Date_parse this mappedKey v ;; Return [(mappedKey, c)]).
Proof.
  intros Hget Hne Hdot Hp Hv. rewrite mapParameters_cons.
  unfold mapParameters_step. rewrite Hv, Hget.
  apply String.eqb_neq in Hne. rewrite Hne, Hdot. cbn [negb].
  destruct (convertType Date_parse this mappedKey v) as [c| |];
    cbn [bind]; try reflexivity.
  now rewrite (put_ordinary _ _ _ Hp).
Qed.

(** ** Conversions *)

Lemma new_Date_string (s : string) :
  new_Date Date_parse (VString s) =
  Return (VDate (match Date_parse s with
                 | Some t => TimeClip t
                 | None => None
                 end)).
Proof. reflexivity. Qed.

Lemma new_Date_no_escape v : new_Date Date_parse v <> Escapes.
Proof.
  destruct v as [| |b|n|s|props|tv]; try discriminate.
  unfold new_Date, ToPrimitive.
  destruct (own_get props "toString"); discriminate.
Qed.

Lemma convertType_no_escape this key v :
  convertType Date_parse this key v <> Escapes.
Proof.
  unfold convertType.
  destruct (Array_includes (dateParameters this) key);
    [apply new_Date_no_escape|].
  destruct (Array_includes (booleanParameters this) key); discriminate.
Qed.


(** ** Extension *)

Lemma is_string_spec v s : is_string v s = true <-> v = VString s.
Proof.
  destruct v as [| |b|n|s'|props|tv]; simpl; split; try discriminate.
  - intros H. apply String.eqb_eq in H. now subst.
  - intros [= ->]. apply String.eqb_refl.
Qed.

Lemma addMapping_knownMappings this camelCase pascalCase type :
  knownMappings (addMapping this camelCase pascalCase type)
  = put_string (knownMappings this) camelCase pascalCase.
Proof.
  unfold addMapping.
  destruct (is_string type "date"); [reflexivity|].
  destruct (is_string type "boolean"); reflexivity.
Qed.

Lemma addMapping_dateParameters this camelCase pascalCase type :
  dateParameters (addMapping this camelCase pascalCase type)
  = if is_string type "date" then dateParameters this ++ [pascalCase]
    else dateParameters this.
Proof.
  unfold addMapping.
  destruct (is_string type "date"); [reflexivity|].
  destruct (is_string type "boolean"); reflexivity.
Qed.

Lemma addMapping_booleanParameters this camelCase pascalCase type :
  booleanParameters (addMapping this camelCase pascalCase type)
  = if is_string type "date" then booleanParameters this
    else if is_string type "boolean" then booleanParameters this ++ [pascalCase]
    else booleanParameters this.
Proof.
  unfold addMapping.
  destruct (is_string type "date"); [reflexivity|].
  destruct (is_string type "boolean"); reflexivity.
Qed.

Lemma get_put_string_same (o : list (string * string)) k s :
  k <> "__proto__" -> get (put_string o k s) k = Own s.
Proof.
  intros H. unfold put_string, get. apply String.eqb_neq in H. rewrite H.
  now rewrite own_get_own_set_same.
Qed.

Lemma get_put_string_other (o : list (string * string)) k s k' :
  k' <> k -> get (put_string o k s) k' = get o k'.
Proof.
  intros H. unfold put_string, get. destruct (k =? "__proto__"); [reflexivity|].
  now rewrite own_get_own_set_other.
Qed.

Lemma mapParameters_inherited_key this k v rest :
  get (knownMappings this) k = Inherited -> nullish v = false ->
  mapParameters Date_parse this ((k, v) :: rest) = Throw TypeError.
Proof.
  intros Hk Hv. rewrite mapParameters_cons. unfold mapParameters_step.
  now rewrite Hv, Hk.
Qed.

(** ** Where fallback entries go *)

Lemma falls_back_Absent this k :
  get (knownMappings this) k = Absent ->
  falls_back this k = true /\ k <> "__proto__".
Proof.
  intros H. unfold falls_back. rewrite H. split; [reflexivity|].
  apply get_Absent_inv in H as [_ H]. now apply inherited_proto.
Qed.

Lemma put_In (o o' : object) k v T v' :
  put o k v = Return o' -> In (T, v') o' ->
  (T = k /\ v' = v) \/ In (T, v') o.
Proof.
  unfold put. destruct (k =? "__proto__").
  - destruct v; intros [= <-]; auto.
  - intros [= <-]. apply In_own_set.
Qed.

Lemma put_keeps_key (o o' : object) k v T v' :
  put o k v = Return o' -> In (T, v') o -> exists v'', In (T, v'') o'.
Proof.
  unfold put. destruct (k =? "__proto__").
  - destruct v; intros [= <-]; eauto.
  - intros [= <-]. apply own_set_keeps_key.
Qed.

Lemma mapParameters_step_unmapped this result unm k v result' unm' :
  mapParameters_step Date_parse this (result, unm) (k, v)
  = Return (result', unm') ->
  (unm' = unm /\ (nullish v = true \/ falls_back this k = false))
  \/ (nullish v = false /\ falls_back this k = true
      /\ put unm (smartCaseConversion k) v = Return unm').
Proof.
  unfold mapParameters_step, falls_back.
  destruct (nullish v); [intros [= <- <-]; left; auto|].
  assert (Hfb : (unmapped <- put unm (smartCaseConversion k) v ;;
                 Return (result, unmapped)) = Return (result', unm') ->
                put unm (smartCaseConversion k) v = Return unm').
  { destruct (put unm (smartCaseConversion k) v); cbn [bind];
      [intros [= <- <-]; reflexivity | discriminate | discriminate]. }
  destruct (get (knownMappings this) k) as [m| |]; [|discriminate|].
  - destruct (m =? ""); cbn [negb].
    + intros H. right. auto.
    + destruct (includes_dot m).
      * destruct (handleNestedParameter result m v); cbn [bind];
          [intros [= <- <-]; left; auto | discriminate | discriminate].
      * destruct (convertType Date_parse this m v) as [c| |]; cbn [bind];
          [|discriminate|discriminate].
        destruct (put result m c); cbn [bind];
          [intros [= <- <-]; left; auto | discriminate | discriminate].
  - intros H. right. auto.
Qed.

(** After the loop, every entry of [unmappedParams] is an input entry sent
    to the fallback, and every such input entry has its name there. *)
Lemma mapParameters_loop_unmapped this input :
  forall acc acc',
    mapParameters_loop Date_parse this acc input = Return acc' ->
    (forall T v', In (T, v') (snd acc') ->
       In (T, v') (snd acc)
       \/ exists k', In (k', v') input /\ nullish v' = false
                    /\ falls_back this k' = true
                    /\ smartCaseConversion k' = T)
    /\ (forall T,
          (exists v, In (T, v) (snd acc))
          \/ (exists k v, In (k, v) input /\ nullish v = false
                         /\ falls_back this k = true /\ k <> "__proto__"
                         /\ smartCaseConversion k = T) ->
          exists v', In (T, v') (snd acc')).
Proof.
  induction input as [|[k v] input IH]; intros acc acc'.
  - cbn [mapParameters_loop]. intros [= <-]. split.
    + intros T v' H. now left.
    + intros T [H|(k & v & [] & _)]. exact H.
  - cbn [mapParameters_loop].
    destruct (mapParameters_step Date_parse this acc (k, v))
      as [[result1 unm1]| |] eqn:Hstep; cbn [bind]; try discriminate.
    intros Hloop. destruct (IH _ _ Hloop) as [IH1 IH2]. cbn [snd] in IH1, IH2.
    destruct acc as [result unm]. cbn [snd].
    apply mapParameters_step_unmapped in Hstep.
    split.
    + intros T v' Hin. destruct (IH1 T v' Hin) as [H1|(k' & Hk' & Hrest)].
      * destruct Hstep as [[-> _]|(Hv & Hfb & Hput)]; [now left|].
        destruct (put_In _ _ _ _ _ _ Hput H1) as [[-> ->]|H]; [|now left].
        right. exists k. repeat split; auto. now left.
      * right. exists k'. split; [now right | exact Hrest].
    + intros T H. apply IH2.
      destruct H as [[v0 H0]|(k0 & v0 & [[= <- <-]|Hin] & Hv0 & Hfb0 & Hp0 & HT0)].
      * left. destruct Hstep as [[-> _]|(_ & _ & Hput)]; [eauto|].
        exact (put_keeps_key _ _ _ _ _ _ Hput H0).
      * left. destruct Hstep as [[_ [Hn|Hn]]|(_ & _ & Hput)];
          [congruence | congruence |].
        assert (Hp : smartCaseConversion k <> "__proto__")
          by (intros E; now apply smartCaseConversion_proto in E).
        rewrite (put_ordinary _ _ _ Hp) in Hput. injection Hput as <-.
        exists v. rewrite <- HT0. apply own_set_In.
      * right. exists k0, v0. auto.
Qed.

Lemma Object_assign_source (T : string) (v0 : value) :
  T <> "__proto__" ->
  forall source target out,
    Object_assign target source = Return out ->
    own_get target T = Some v0 \/ (exists v, In (T, v) source) ->
    (forall v', In (T, v') source -> v' = v0) ->
    own_get out T = Some v0.
Proof.
  intros HT. induction source as [|[k v] rest IH]; intros target out.
  - cbn [Object_assign]. intros [= <-] [H|[v []]] _. exact H.
  - cbn [Object_assign].
    destruct (put target k v) as [t| |] eqn:Hput; cbn [bind]; try discriminate.
    intros Hrest Hsome Hall. apply (IH t out Hrest).
    + destruct (String.eqb_spec k T) as [->|Hne].
      * left. rewrite (put_ordinary _ _ _ HT) in Hput. injection Hput as <-.
        rewrite (Hall v) by now left. apply own_get_own_set_same.
      * destruct Hsome as [H|[v1 [[= -> ->]|H]]].
        -- left. unfold put in Hput. destruct (k =? "__proto__").
           ++ destruct v; try discriminate Hput; injection Hput as <-; exact H.
           ++ injection Hput as <-. rewrite own_get_own_set_other; auto.
        -- now destruct Hne.
        -- right. eauto.
    + intros v' Hin. apply Hall. now right.
Qed.

Lemma mapParameters_fallback_entry this input out ku vu :
  mapParameters Date_parse this input = Return out ->
  In (ku, vu) input -> nullish vu = false ->
  get (knownMappings this) ku = Absent ->
  (forall k' v', In (k', v') input -> nullish v' = false ->
                 falls_back this k' = true ->
                 smartCaseConversion k' = smartCaseConversion ku ->
                 v' = vu) ->
  own_get out (smartCaseConversion ku) = Some vu.
Proof.
  intros Hmap Hin Hv Hget Huniq. unfold mapParameters in Hmap.
  destruct (mapParameters_loop Date_parse this ([], []) input)
    as [acc| |] eqn:Hloop; cbn [bind] in Hmap; try discriminate.
  destruct (mapParameters_loop_unmapped _ _ _ _ Hloop) as [H1 H2].
  cbn [snd] in H1, H2. destruct (falls_back_Absent _ _ Hget) as [Hfb Hp].
  assert (HT : smartCaseConversion ku <> "__proto__")
    by (intros E; now apply smartCaseConversion_proto in E).
  apply (Object_assign_source _ vu HT _ _ _ Hmap).
  - right. apply H2. right. exists ku, vu. auto.
  - intros v' Hin'. destruct (H1 _ _ Hin') as [[]|(k' & Hk' & Hv' & Hfb' & HT')].
    eauto.
Qed.

Lemma mapParameters_collision_pair this kk mappedKey vk c ku vu :
  get (knownMappings this) kk = Own mappedKey ->
  mappedKey <> "" -> includes_dot mappedKey = false ->
  get (knownMappings this) ku = Absent ->
  smartCaseConversion ku = mappedKey ->
  nullish vk = false -> nullish vu = false ->
  convertType Date_parse this mappedKey vk = Return c ->
  mapParameters Date_parse this [(ku, vu); (kk, vk)]
  = Return [(mappedKey, vu)]
  /\ mapParameters Date_parse this [(kk, vk); (ku, vu)]
     = Return [(mappedKey, vu)].
Proof.
  intros Hkk Hne Hdot Hku Hsmart Hvk Hvu Hc.
  assert (Hp : mappedKey <> "__proto__").
  { intros E. rewrite E in Hsmart. apply smartCaseConversion_proto in Hsmart.
    destruct (falls_back_Absent _ _ Hku) as [_ H]. contradiction. }
  apply String.eqb_neq in Hne.
  split; unfold mapParameters; cbn [mapParameters_loop];
    unfold mapParameters_step;
    rewrite Hvk, Hvu, Hkk, Hku, Hne, Hdot, Hsmart; cbn [negb bind];
    rewrite ?Hc; cbn [bind]; rewrite !(put_ordinary _ _ _ Hp);
    cbn [bind own_set fst snd Object_assign];
    rewrite !(put_ordinary _ _ _ Hp); cbn [bind own_set];
    cbn [fst snd Object_assign]; rewrite (put_ordinary _ _ _ Hp);
    cbn [bind own_set]; now rewrite String.eqb_refl.
Qed.


Lemma new_ParameterMapper_registry_disjoint :
  registry_disjoint new_ParameterMapper.
Proof.
  intros key Hd Hb. simpl in Hd, Hb.
  repeat (destruct Hd as [<-|Hd];
          [repeat (destruct Hb as [Hb|Hb]; [discriminate Hb|]); exact Hb|]).
  exact Hd.
Qed.

(** ** Claims *)

(** C3.  [mapParameters] is not total: an entry with a non-null value whose
    key names a member of [Object.prototype] (such as "constructor" or
    "toString") makes the exported mapper raise a [TypeError], because
    [knownMappings[key]] then reads the inherited member, which is truthy and
    has no [includes] method. *)
Theorem mapParameters_raises_on_inherited_key k v rest :
  inherited k = true -> nullish v = false ->
  mapParameters Date_parse new_ParameterMapper ((k, v) :: rest)
  = Throw TypeError.
Proof.
  intros Hk Hv. apply mapParameters_inherited_key; [|exact Hv].
  now apply new_ParameterMapper_no_inherited_key.
Qed.

(** C7.  On a key that is registered as boolean-valued and not as
    date-valued, [convertType] returns [true] exactly when the value is the
    boolean [true] or the string "true", and [false] for every other value,
    among them "false", [false], "yes" and "True".  A key that is in both
    sets is converted as a date: the date test comes first. *)
Theorem convertType_boolean_strict this key v :
  In key (booleanParameters this) ->
  (~ In key (dateParameters this) ->
   exists b,
     convertType Date_parse this key v = Return (VBool b)
     /\ (b = true <-> v = VBool true \/ v = VString "true")
     /\ (In v [VString "false"; VBool false; VString "yes"; VString "True"] ->
         b = false))
  /\ (In key (dateParameters this) ->
      convertType Date_parse this key v = new_Date Date_parse v).
Proof.
  intros Hb. split.
  - intros Hd. exists (is_true_or_true_string v). repeat split.
    + unfold convertType.
      destruct (Array_includes (dateParameters this) key) eqn:E.
      * apply Array_includes_In in E. contradiction.
      * apply Array_includes_In in Hb. now rewrite Hb.
    + destruct v as [| |b|n|s|props|tv]; simpl; try discriminate.
      * intros ->. now left.
      * intros H. apply String.eqb_eq in H. subst. now right.
    + intros [H|H]; subst; reflexivity.
    + simpl. intros [<-|[<-|[<-|[<-|[]]]]]; reflexivity.
  - intros Hd. unfold convertType. apply Array_includes_In in Hd.
    now rewrite Hd.
Qed.

(** C10.  An entry whose key has a dotted target that does not split into
    exactly two segments changes nothing and raises nothing: the mapper
    returns what it returns without the entry, and the empty object when the
    entry is alone. *)
Theorem mapParameters_ignores_deep_target this key mappedKey v pre post :
  get (knownMappings this) key = Own mappedKey ->
  includes_dot mappedKey = true ->
  length (split_dot mappedKey) <> 2%nat ->
  mapParameters Date_parse this (pre ++ (key, v) :: post)
  = mapParameters Date_parse this (pre ++ post)
  /\ mapParameters Date_parse this [(key, v)] = Return [].
Proof.
  intros Hget Hdot Hlen.
  assert (Hstep : forall acc,
             mapParameters_step Date_parse this acc (key, v) = Return acc).
  { intros [result unmapped]. unfold mapParameters_step.
    destruct (nullish v); [reflexivity|].
    rewrite Hget.
    pose proof (includes_dot_nonempty _ Hdot) as Hne.
    apply String.eqb_neq in Hne. rewrite Hne, Hdot. simpl.
    unfold handleNestedParameter.
    destruct (split_dot mappedKey) as [|p [|c [|x l]]]; simpl in *;
      try reflexivity.
    now destruct Hlen. }
  split.
  - now apply mapParameters_skip.
  - apply (mapParameters_skip this [] (key, v) [] Hstep).
Qed.

(** C6.  A key whose target is [P.C], with [P] and [C] dot-free ordinary
    property names, maps a non-null value [v] to [{P: {C: v}}]; [v] is stored
    as it is, whatever the conversion registry holds.  A segment that names a
    member of [Object.prototype] is not handled: with the target
    "Config.__proto__" the value is assigned through the inherited setter,
    no property is defined and the output is [{Config: {}}]. *)
Theorem mapParameters_two_segment_target :
  (forall this k (P C : string) v,
      get (knownMappings this) k = Own (P ++ "." ++ C)%string ->
      includes_dot P = false -> includes_dot C = false ->
      inherited P = false -> C <> "__proto__" ->
      nullish v = false ->
      mapParameters Date_parse this [(k, v)] = Return [(P, VObject [(C, v)])])
  /\ get (knownMappings
            (addMapping new_ParameterMapper "k" "Config.__proto__" VNull)) "k"
     = Own "Config.__proto__"
  /\ mapParameters Date_parse
       (addMapping new_ParameterMapper "k" "Config.__proto__" VNull)
       [("k", VString "v")]
     = Return [("Config", VObject [])].
Proof.
  split; [|split; reflexivity].
  intros this k P C v Hget HP HC HiP HCp Hv.
  rewrite (mapParameters_singleton_dotted _ _ _ _ Hget (includes_dot_two P C) Hv).
  now apply handleNestedParameter_fresh.
Qed.

(** C1.  When the target of a known key and the fallback name of an unknown
    key are the same output key, the output holds the value of the fallback
    entry, whichever of the two the loop meets first: the known-key writes
    go to [result] during the loop, the fallback entries are collected in
    [unmappedParams] and assigned over [result] after it.  In any input the
    mapper accepts, the value of an unknown key is found under its fallback
    name, provided the other unknown keys with that fallback name carry the
    same value.  The keys are strings of code units below 128, on which the
    fallback name is the one the engine computes. *)
Theorem mapParameters_fallback_wins this ku vu :
  get (knownMappings this) ku = Absent -> nullish vu = false ->
  is_ascii ku = true ->
  (forall kk mappedKey vk c,
      get (knownMappings this) kk = Own mappedKey ->
      mappedKey <> "" -> includes_dot mappedKey = false ->
      smartCaseConversion ku = mappedKey ->
      nullish vk = false ->
      convertType Date_parse this mappedKey vk = Return c ->
      mapParameters Date_parse this [(ku, vu); (kk, vk)]
      = Return [(mappedKey, vu)]
      /\ mapParameters Date_parse this [(kk, vk); (ku, vu)]
         = Return [(mappedKey, vu)])
  /\ (forall input out,
        mapParameters Date_parse this input = Return out ->
        ascii_keys input ->
        In (ku, vu) input ->
        (forall k' v', In (k', v') input -> nullish v' = false ->
                       falls_back this k' = true ->
                       smartCaseConversion k' = smartCaseConversion ku ->
                       v' = vu) ->
        own_get out (smartCaseConversion ku) = Some vu).
Proof.
  intros Hku Hvu _. split.
  - intros kk mappedKey vk c Hkk Hne Hdot Hsmart Hvk Hc.
    now apply (mapParameters_collision_pair this kk mappedKey vk c ku vu).
  - intros input out Hmap _ Hin Huniq.
    now apply (mapParameters_fallback_entry this input out ku vu).
Qed.

(** C2.  On a date-valued key an unparseable string raises nothing:
    [convertType] returns a [Date] object holding the NaN time value.  When
    the key is the flat target of a source key (not empty, without a dot and
    not "__proto__"), [mapParameters] on the one entry of that source key
    with the string returns the one entry of the target with that object.
    The mapper has no handler: an error raised while an entry is processed
    ends [mapParameters] with that error. *)
Theorem convertType_unparseable_date_returns this key s :
  In key (dateParameters this) -> Date_parse s = None ->
  convertType Date_parse this key (VString s) = Return (VDate None)
  /\ (forall k,
        get (knownMappings this) k = Own key ->
        key <> "" -> includes_dot key = false -> key <> "__proto__" ->
        mapParameters Date_parse this [(k, VString s)]
        = Return [(key, VDate None)])
  /\ (forall pre acc entry post e,
        mapParameters_loop Date_parse this ([], []) pre = Return acc ->
        mapParameters_step Date_parse this acc entry = Throw e ->
        mapParameters Date_parse this (pre ++ entry :: post) = Throw e).
Proof.
  intros Hkey Hparse.
  assert (Hc : convertType Date_parse this key (VString s)
               = Return (VDate None)).
  { unfold convertType. apply Array_includes_In in Hkey. rewrite Hkey.
    now rewrite new_Date_string, Hparse. }
  split; [exact Hc|]. split.
  - intros k Hget Hne Hdot Hp.
    rewrite (mapParameters_singleton_flat _ _ _ (VString s) Hget Hne Hdot Hp eq_refl).
    now rewrite Hc.
  - intros pre acc entry post e Hpre Hstep. unfold mapParameters.
    rewrite mapParameters_loop_app, Hpre. cbn [bind mapParameters_loop].
    now rewrite Hstep.
Qed.

(** C4.  The constructor's two registry sets are disjoint, and
    [addMapping] keeps a disjoint registry disjoint exactly when it does not
    add to one set a key that the other set already holds; it makes no such
    check itself. *)
Theorem addMapping_registry_disjoint :
  registry_disjoint new_ParameterMapper
  /\ forall this camelCase pascalCase type,
      registry_disjoint this ->
      (registry_disjoint (addMapping this camelCase pascalCase type) <->
       ~ (type = VString "date" /\ In pascalCase (booleanParameters this))
       /\ ~ (type = VString "boolean" /\ In pascalCase (dateParameters this))).
Proof.
  split; [exact new_ParameterMapper_registry_disjoint|].
  - intros this camelCase pascalCase type Hdis.
    unfold registry_disjoint.
    setoid_rewrite addMapping_dateParameters.
    setoid_rewrite addMapping_booleanParameters.
    destruct (is_string type "date") eqn:Ed.
    + apply is_string_spec in Ed. subst type. split.
      * intros H. split.
        -- intros [_ Hb]. apply (H pascalCase); [|exact Hb].
           apply in_or_app. right. now left.
        -- intros [[=] _].
      * intros [H1 _] key Hd Hb. apply in_app_or in Hd as [Hd|[<-|[]]].
        -- exact (Hdis key Hd Hb).
        -- apply H1. now split.
    + destruct (is_string type "boolean") eqn:Eb.
      * apply is_string_spec in Eb. subst type. split.
        -- intros H. split.
           ++ intros [[=] _].
           ++ intros [_ Hd]. apply (H pascalCase); [exact Hd|].
              apply in_or_app. right. now left.
        -- intros [_ H2] key Hd Hb. apply in_app_or in Hb as [Hb|[<-|[]]].
           ++ exact (Hdis key Hd Hb).
           ++ apply H2. now split.
      * split.
        -- intros _. split; intros [E _]; apply is_string_spec in E; congruence.
        -- intros _. exact Hdis.
Qed.

(** C5.  A key [k] for which [knownMappings[k]] is [undefined] maps a
    non-null value [v] to the one entry [K: v], where [K] is [k] with its
    first character upper-cased and the rest unchanged ("customFlag" gives
    "CustomFlag").  A key that is no entry of the table but names a member of
    [Object.prototype] gets no fallback: for "constructor" the exported mapper
    raises a [TypeError]. *)
Theorem mapParameters_fallback_unknown_key :
  (forall this k v,
      get (knownMappings this) k = Absent -> nullish v = false ->
      mapParameters Date_parse this [(k, v)]
      = Return [(smartCaseConversion k, v)])
  /\ (forall c r, smartCaseConversion (String c r) = String (upper_char c) r)
  /\ smartCaseConversion "customFlag" = "CustomFlag"
  /\ own_get (knownMappings new_ParameterMapper) "constructor" = None
  /\ mapParameters Date_parse new_ParameterMapper [("constructor", VString "x")]
     = Throw TypeError.
Proof.
  split; [exact mapParameters_singleton_fallback|].
  split; [exact smartCaseConversion_cons|].
  split; [reflexivity|]. split; [reflexivity|].
  rewrite mapParameters_cons. unfold mapParameters_step. cbn [nullish].
  now rewrite (new_ParameterMapper_no_inherited_key "constructor" eq_refl).
Qed.

(** ** What the exported mapper does with one entry *)



End Properties.

(** ** The claims on concrete inputs *)

Lemma mapParameters_fallback_wins_witness :
  (mapParameters Date_parse_ymd new_ParameterMapper
     [("Bucket", VString "from Bucket"); ("bucketName", VString "from bucketName")]
   = Return [("Bucket", VString "from Bucket")]
   /\ mapParameters Date_parse_ymd new_ParameterMapper
        [("bucketName", VString "from bucketName"); ("Bucket", VString "from Bucket")]
      = Return [("Bucket", VString "from Bucket")])
  /\ forall out,
      mapParameters Date_parse_ymd new_ParameterMapper
        [("acl", VString "private"); ("Bucket", VString "from Bucket");
         ("bucketName", VString "from bucketName")] = Return out ->
      own_get out "Bucket" = Some (VString "from Bucket").
Proof.
  destruct (mapParameters_fallback_wins Date_parse_ymd new_ParameterMapper
              "Bucket" (VString "from Bucket") eq_refl eq_refl eq_refl)
    as [Hpair Hany].
  split.
  - apply (Hpair "bucketName" "Bucket" (VString "from bucketName")
             (VString "from bucketName"));
      first [reflexivity | discriminate].
  - intros out Hout. apply (Hany _ out Hout).
    + intros k' v' [[= <- <-]|[[= <- <-]|[[= <- <-]|[]]]]; reflexivity.
    + simpl. auto.
    + intros k' v' [[= <- <-]|[[= <- <-]|[[= <- <-]|[]]]] Hv Hfb Hs;
        first [reflexivity | discriminate Hfb].
Defined.

(** C1, as stated, fails: the known key "bucketName" is processed after the
    unknown key "Bucket", both write the output key "Bucket", and the output
    holds the value of the earlier, fallback entry. *)
Lemma mapParameters_later_known_key_loses :
  get (knownMappings new_ParameterMapper) "bucketName" = Own "Bucket"
  /\ get (knownMappings new_ParameterMapper) "Bucket" = Absent
  /\ smartCaseConversion "Bucket" = "Bucket"
  /\ exists out,
       mapParameters Date_parse_ymd new_ParameterMapper
         [("Bucket", VString "earlier"); ("bucketName", VString "later")]
       = Return out
       /\ own_get out "Bucket" = Some (VString "earlier")
       /\ own_get out "Bucket" <> Some (VString "later").
Proof.
  repeat split; try reflexivity.
  eexists. split; [reflexivity|]. split; [reflexivity | discriminate].
Qed.

Lemma convertType_unparseable_date_returns_witness :
  convertType Date_parse_ymd new_ParameterMapper "Expires" (VString "not-a-date")
  = Return (VDate None)
  /\ mapParameters Date_parse_ymd new_ParameterMapper
       [("expires", VString "not-a-date")]
     = Return [("Expires", VDate None)].
Proof.
  destruct (convertType_unparseable_date_returns Date_parse_ymd
              new_ParameterMapper "Expires" "not-a-date")
    as (Hc & Hm & _).
  - simpl. auto.
  - reflexivity.
  - split; [exact Hc|].
    apply Hm; first [reflexivity | discriminate].
Defined.

(** C2, as stated, fails: on the date-valued key "Expires" the string
    "not-a-date", which the parser rejects, makes [convertType] return and not
    raise. *)
Lemma convertType_not_a_date_does_not_raise :
  In "Expires" (dateParameters new_ParameterMapper)
  /\ Date_parse_ymd "not-a-date" = None
  /\ convertType Date_parse_ymd new_ParameterMapper "Expires"
       (VString "not-a-date") = Return (VDate None)
  /\ ~ (exists e,
          convertType Date_parse_ymd new_ParameterMapper "Expires"
            (VString "not-a-date") = Throw e).
Proof.
  split; [simpl; auto|]. split; [reflexivity|]. split; [reflexivity|].
  intros [e H]. discriminate H.
Qed.

Lemma mapParameters_raises_on_inherited_key_witness :
  inherited "constructor" = true
  /\ nullish (VString "x") = false
  /\ mapParameters Date_parse_ymd new_ParameterMapper
       [("constructor", VString "x"); ("bucketName", VString "logs")]
     = Throw TypeError.
Proof.
  split; [reflexivity|]. split; [reflexivity|].
  apply (mapParameters_raises_on_inherited_key Date_parse_ymd); reflexivity.
Defined.

Lemma addMapping_registry_disjoint_witness :
  registry_disjoint
    (addMapping new_ParameterMapper "dryRun" "DryRun" (VString "boolean")).
Proof.
  destruct addMapping_registry_disjoint as [H0 H].
  apply (H new_ParameterMapper "dryRun" "DryRun" (VString "boolean") H0).
  split; intros [E Hin].
  - discriminate E.
  - simpl in Hin. repeat (destruct Hin as [Hin|Hin]; [discriminate Hin|]).
    exact Hin.
Defined.

(** C4, as stated, fails: [addMapping] with kind "boolean" and a target that
    is already date-valued puts the target in both sets. *)
Lemma addMapping_breaks_registry_disjoint :
  registry_disjoint new_ParameterMapper
  /\ ~ registry_disjoint
        (addMapping new_ParameterMapper "expiry" "Expires" (VString "boolean")).
Proof.
  split; [exact new_ParameterMapper_registry_disjoint|].
  intros H. apply (H "Expires"); simpl; auto 10.
Qed.

Lemma mapParameters_fallback_unknown_key_witness :
  mapParameters Date_parse_ymd new_ParameterMapper [("customFlag", VBool false)]
  = Return [("CustomFlag", VBool false)].
Proof.
  destruct (mapParameters_fallback_unknown_key Date_parse_ymd) as [H _].
  apply (H new_ParameterMapper "customFlag" (VBool false)); reflexivity.
Defined.

Lemma mapParameters_two_segment_target_witness :
  mapParameters Date_parse_ymd new_ParameterMapper
    [("locationConstraint", VString "eu-west-1")]
  = Return [("CreateBucketConfiguration",
             VObject [("LocationConstraint", VString "eu-west-1")])].
Proof.
  destruct (mapParameters_two_segment_target Date_parse_ymd) as [H _].
  apply (H new_ParameterMapper
           "locationConstraint" "CreateBucketConfiguration" "LocationConstraint");
    first [reflexivity | discriminate].
Defined.

Lemma convertType_boolean_strict_witness :
  exists b,
    convertType Date_parse_ymd new_ParameterMapper "BucketKeyEnabled"
      (VString "true") = Return (VBool b)
    /\ b = true.
Proof.
  destruct (convertType_boolean_strict Date_parse_ymd new_ParameterMapper
              "BucketKeyEnabled" (VString "true"))
    as [H _].
  - simpl. auto.
  - destruct H as (b & Hc & Hb & _).
    + simpl. intuition discriminate.
    + exists b. split; [exact Hc|]. apply Hb. now right.
Defined.

(** C7, as stated, fails: after [addMapping("expiry", "Expires", "boolean")]
    the key "Expires" is registered as boolean-valued, and [convertType]
    turns [true] into a [Date], the key being date-valued as well. *)
Lemma convertType_boolean_registered_as_date :
  In "Expires"
    (booleanParameters
       (addMapping new_ParameterMapper "expiry" "Expires" (VString "boolean")))
  /\ convertType Date_parse_ymd
       (addMapping new_ParameterMapper "expiry" "Expires" (VString "boolean"))
       "Expires" (VBool true)
     = Return (VDate (Some 1%Z))
  /\ ~ (exists b,
         convertType Date_parse_ymd
           (addMapping new_ParameterMapper "expiry" "Expires" (VString "boolean"))
           "Expires" (VBool true)
         = Return (VBool b)).
Proof.
  split; [simpl; auto|]. split; [reflexivity|].
  intros [b H]. discriminate H.
Qed.

Lemma mapParameters_ignores_deep_target_witness :
  mapParameters Date_parse_ymd
    (addMapping new_ParameterMapper "deep" "A.B.C" VNull)
    [("bucketName", VString "logs"); ("deep", VString "v"); ("acl", VString "private")]
  = mapParameters Date_parse_ymd
      (addMapping new_ParameterMapper "deep" "A.B.C" VNull)
      [("bucketName", VString "logs"); ("acl", VString "private")]
  /\ mapParameters Date_parse_ymd
       (addMapping new_ParameterMapper "deep" "A.B.C" VNull)
       [("deep", VString "v")]
     = Return [].
Proof.
  apply (mapParameters_ignores_deep_target Date_parse_ymd
           (addMapping new_ParameterMapper "deep" "A.B.C" VNull)
           "deep" "A.B.C" (VString "v")
           [("bucketName", VString "logs")] [("acl", VString "private")]).
  - reflexivity.
  - reflexivity.
  - simpl. lia.
Defined.

(** * Further properties of the mapper *)

Lemma written_trans W o1 o2 o3 :
  written W o1 o2 -> written W o2 o3 -> written W o1 o3.
Proof.
  intros H12 H23. induction H23 as [|o o' K c H IH HW]; [exact H12|].
  apply written_set; auto.
Qed.

Lemma written_impl (W W' : string -> value -> Prop) o o' :
  (forall K c, W K c -> W' K c) -> written W o o' -> written W' o o'.
Proof.
  intros HW H. induction H; [apply written_refl | apply written_set; auto].
Qed.

Lemma written_In W o o' K c :
  written W o o' -> In (K, c) o' -> In (K, c) o \/ W K c.
Proof.
  intros H. induction H as [|o o' K0 c0 H IH HW]; [now left|].
  intros Hin. apply In_own_set in Hin as [[-> ->]|Hin]; [now right | auto].
Qed.

Lemma keys_own_set {A : Type} (o : list (string * A)) k a :
  map fst (own_set o k a) = map fst o
  \/ (~ In k (map fst o) /\ map fst (own_set o k a) = map fst o ++ [k]).
Proof.
  induction o as [|[k' a'] o IH]; simpl.
  - right. split; [tauto | reflexivity].
  - destruct (String.eqb_spec k k') as [->|Hne]; simpl.
    + now left.
    + destruct IH as [->|[Hn ->]]; [now left|].
      right. split; [|reflexivity]. intros [E|E]; [now subst | contradiction].
Qed.

Lemma own_set_fresh {A : Type} (o : list (string * A)) k a :
  ~ In k (map fst o) -> own_set o k a = o ++ [(k, a)].
Proof.
  induction o as [|[k' a'] o IH]; simpl; [reflexivity|].
  intros Hn. destruct (String.eqb_spec k k') as [->|Hne].
  - destruct Hn. now left.
  - rewrite IH; [reflexivity|]. intros H. apply Hn. now right.
Qed.

Lemma NoDup_keys_own_set {A : Type} (o : list (string * A)) k a :
  NoDup (map fst o) -> NoDup (map fst (own_set o k a)).
Proof.
  intros H. destruct (keys_own_set o k a) as [->|[Hn ->]]; [exact H|].
  apply NoDup_app; [exact H | constructor; [tauto | constructor] |].
  intros x Hx [<-|[]]. contradiction.
Qed.

Lemma written_NoDup W o o' :
  written W o o' -> NoDup (map fst o) -> NoDup (map fst o').
Proof.
  intros H Hnd. induction H; [exact Hnd|].
  apply NoDup_keys_own_set. auto.
Qed.

Lemma written_own_get_const W o o' T c :
  written W o o' -> own_get o T = Some c ->
  (forall c', W T c' -> c' = c) -> own_get o' T = Some c.
Proof.
  intros H Hget HW. induction H as [|o o' K c0 H IH HW0]; [exact Hget|].
  destruct (String.eqb_spec T K) as [->|Hne].
  - rewrite own_get_own_set_same. f_equal. auto.
  - rewrite own_get_own_set_other; auto.
Qed.

Lemma written_own_get_other W o o' T :
  written W o o' -> (forall c, ~ W T c) -> own_get o' T = own_get o T.
Proof.
  intros H HW. induction H as [|o o' K c0 H IH HW0]; [reflexivity|].
  destruct (String.eqb_spec T K) as [->|Hne].
  - now destruct (HW c0).
  - rewrite own_get_own_set_other; auto.
Qed.

Lemma put_written (o o' : object) K c :
  put o K c = Return o' -> written (fun K' c' => K' = K /\ c' = c) o o'.
Proof.
  unfold put. destruct (K =? "__proto__").
  - destruct c; intros [= <-]; apply written_refl.
  - intros [= <-]. apply written_set; [apply written_refl | auto].
Qed.

Lemma Object_assign_written source : forall target out,
  Object_assign target source = Return out ->
  written (fun K c => In (K, c) source) target out.
Proof.
  induction source as [|[k v] rest IH]; intros target out.
  - cbn [Object_assign]. intros [= <-]. apply written_refl.
  - cbn [Object_assign].
    destruct (put target k v) as [t| |] eqn:Hput; cbn [bind]; try discriminate.
    intros Hrest. apply written_trans with t.
    + apply put_written in Hput. eapply written_impl; [|exact Hput].
      intros K c [-> ->]. now left.
    + apply (written_impl (fun K c => In (K, c) rest)); [|now apply IH].
      intros K c H. now right.
Qed.

Section MapperInvariants.

Variable Date_parse : string -> option Z.
Variable this : ParameterMapper.

Lemma mapParameters_loop_ind (P : object * object -> Prop) input :
  forall acc acc',
    (forall a e a', P a -> In e input ->
                    mapParameters_step Date_parse this a e = Return a' -> P a') ->
    P acc ->
    mapParameters_loop Date_parse this acc input = Return acc' -> P acc'.
Proof.
  induction input as [|e input IH]; intros acc acc' Hstep Hacc.
  - cbn [mapParameters_loop]. now intros [= <-].
  - cbn [mapParameters_loop].
    destruct (mapParameters_step Date_parse this acc e) as [a1| |] eqn:E;
      cbn [bind]; try discriminate.
    apply IH.
    + intros a e' a' Ha Hin. apply Hstep; [exact Ha | now right].
    + apply (Hstep acc e a1 Hacc); [now left | exact E].
Qed.

Lemma handleNestedParameter_written result mappedKey v result' :
  handleNestedParameter result mappedKey v = Return result' ->
  written (fun K c => exists child inner,
                        split_dot mappedKey = [K; child] /\ c = VObject inner)
    result result'.
Proof.
  unfold handleNestedParameter.
  destruct (split_dot mappedKey) as [|parent [|child [|x l]]] eqn:Hs;
    try (intros [= <-]; apply written_refl).
  set (W := fun K c => exists child0 inner,
                         [parent; child] = [K; child0] /\ c = VObject inner).
  assert (HW : forall inner, W parent (VObject inner))
    by (intros inner; exists child, inner; auto).
  assert (Hput : forall r r', put r parent (VObject []) = Return r' ->
                              written W r r').
  { intros r r' H. apply put_written in H.
    apply (written_impl _ W) in H; [exact H|]. intros K c [-> ->]. apply HW. }
  assert (Hmem : forall r r', put_member r parent child v = Return r' ->
                              written W r r').
  { intros r r'. unfold put_member.
    destruct (get r parent) as [cur| |]; try discriminate.
    destruct cur as [| |b|n|s|props|tv]; try discriminate.
    1-3: destruct (child =? "__proto__"); [|discriminate];
         intros [= <-]; apply written_refl.
    destruct (put props child v) as [inner| |]; cbn [bind]; try discriminate.
    intros [= <-]. apply written_set; [apply written_refl | apply HW]. }
  destruct (get result parent) as [cur| |].
  - destruct (truthy cur); cbn [bind].
    + apply Hmem.
    + destruct (put result parent (VObject [])) as [r| |] eqn:E; cbn [bind];
        try discriminate.
      intros H. apply written_trans with r; auto.
  - cbn [bind]. apply Hmem.
  - destruct (put result parent (VObject [])) as [r| |] eqn:E; cbn [bind];
      try discriminate.
    intros H. apply written_trans with r; auto.
Qed.

Lemma mapParameters_step_written result unm k v result' unm' :
  mapParameters_step Date_parse this (result, unm) (k, v)
  = Return (result', unm') ->
  written (known_write Date_parse this k v) result result'
  /\ written (fallback_write this k v) unm unm'.
Proof.
  unfold mapParameters_step.
  destruct (nullish v) eqn:Hv; [intros [= <- <-]; split; apply written_refl|].
  assert (Hfb : falls_back this k = true ->
             (unmapped <- put unm (smartCaseConversion k) v ;;
              Return (result, unmapped)) = Return (result', unm') ->
             written (known_write Date_parse this k v) result result'
             /\ written (fallback_write this k v) unm unm').
  { intros Hf.
    destruct (put unm (smartCaseConversion k) v) as [u| |] eqn:E; cbn [bind];
      try discriminate.
    intros [= <- <-]. split; [apply written_refl|]. apply put_written in E.
    eapply written_impl; [|exact E].
    intros K c [-> ->]. unfold fallback_write. auto. }
  unfold falls_back in Hfb.
  destruct (get (knownMappings this) k) as [m| |] eqn:Hget; try discriminate;
    [|now apply Hfb].
  destruct (String.eqb_spec m "") as [->|Hne]; cbn [negb]; [now apply Hfb|].
  destruct (includes_dot m) eqn:Hdot.
  - destruct (handleNestedParameter result m v) as [r| |] eqn:E;
      cbn [bind]; try discriminate.
    intros [= <- <-]. split; [|apply written_refl].
    apply handleNestedParameter_written in E.
    eapply written_impl; [|exact E].
    intros K c H. split; [exact Hv|]. exists m. auto.
  - destruct (convertType Date_parse this m v) as [c| |] eqn:Ec;
      cbn [bind]; try discriminate.
    destruct (put result m c) as [r| |] eqn:E; cbn [bind]; try discriminate.
    intros [= <- <-]. split; [|apply written_refl].
    apply put_written in E.
    eapply written_impl; [|exact E].
    intros K c' [-> ->]. split; [exact Hv|].
    exists m. repeat split; auto.
Qed.

Lemma mapParameters_loop_written input acc acc' :
  mapParameters_loop Date_parse this acc input = Return acc' ->
  written (fun K c => exists k v, In (k, v) input
                                  /\ known_write Date_parse this k v K c)
    (fst acc) (fst acc')
  /\ written (fun K c => exists k v, In (k, v) input
                                     /\ fallback_write this k v K c)
       (snd acc) (snd acc').
Proof.
  apply (mapParameters_loop_ind
           (fun a =>
              written (fun K c => exists k v, In (k, v) input
                                   /\ known_write Date_parse this k v K c)
                (fst acc) (fst a)
              /\ written (fun K c => exists k v, In (k, v) input
                                      /\ fallback_write this k v K c)
                   (snd acc) (snd a))).
  - intros [r u] [k v] [r' u'] [Hr Hu] Hin Hstep. cbn [fst snd] in *.
    apply mapParameters_step_written in Hstep as [Hr' Hu']. split.
    + apply written_trans with r; [exact Hr|].
      apply (written_impl (known_write Date_parse this k v)); [|exact Hr'].
      intros K c H. exists k, v. auto.
    + apply written_trans with u; [exact Hu|].
      apply (written_impl (fallback_write this k v)); [|exact Hu'].
      intros K c H. exists k, v. auto.
  - split; apply written_refl.
Qed.

Lemma mapParameters_written input out :
  mapParameters Date_parse this input = Return out ->
  written (derived_entry Date_parse this input) [] out.
Proof.
  unfold mapParameters.
  destruct (mapParameters_loop Date_parse this ([], []) input)
    as [[result unm]| |] eqn:Hloop; cbn [bind fst snd]; try discriminate.
  intros Hassign. apply mapParameters_loop_written in Hloop as [Hr Hu].
  cbn [fst snd] in Hr, Hu.
  apply written_trans with result.
  - eapply written_impl; [|exact Hr].
    intros K c (k & v & Hin & Hw). exists k, v. auto.
  - apply Object_assign_written in Hassign.
    apply (written_impl (fun K c => In (K, c) unm)); [|exact Hassign].
    intros K c Hin. destruct (written_In _ _ _ _ _ Hu Hin) as [[]|(k & v & Hk & Hw)].
    exists k, v. auto.
Qed.

End MapperInvariants.

(** ** Characters *)

Lemma is_lower_upper_char (c : ascii) : is_lower (upper_char c) = false.
Proof. destruct c as [[] [] [] [] [] [] [] []]; reflexivity. Qed.

Lemma upper_char_not_lower (c : ascii) : is_lower c = false -> upper_char c = c.
Proof. unfold is_lower, upper_char. now intros ->. Qed.

Lemma upper_char_idempotent (c : ascii) : upper_char (upper_char c) = upper_char c.
Proof. apply upper_char_not_lower, is_lower_upper_char. Qed.

Lemma upper_char_fixed (c : ascii) : upper_char c = c -> is_lower c = false.
Proof. intros H. rewrite <- H. apply is_lower_upper_char. Qed.

Section MapperProperties.

Variable Date_parse : string -> option Z.

Lemma convertType_nonnull this key v c :
  nullish v = false -> convertType Date_parse this key v = Return c ->
  nullish c = false.
Proof.
  intros Hv. unfold convertType.
  destruct (Array_includes (dateParameters this) key).
  - unfold new_Date. destruct v as [| |b|n|s|props|tv]; try discriminate Hv;
      cbn [ToPrimitive bind]; try (intros [= <-]; reflexivity).
    destruct (own_get props "toString"); cbn [bind]; [discriminate|].
    intros [= <-]. reflexivity.
  - destruct (Array_includes (booleanParameters this) key);
      intros [= <-]; [reflexivity | exact Hv].
Qed.

Lemma convertType_safe this key v :
  (forall props, v = VObject props -> own_get props "toString" = None) ->
  exists c, convertType Date_parse this key v = Return c.
Proof.
  intros Hv. unfold convertType.
  destruct (Array_includes (dateParameters this) key).
  - destruct v as [| |b|n|s|props|tv]; try (eexists; reflexivity).
    unfold new_Date, ToPrimitive. rewrite (Hv props eq_refl). eexists. reflexivity.
  - destruct (Array_includes (booleanParameters this) key);
      eexists; reflexivity.
Qed.

(** X1.  For an input whose keys are ASCII strings (every code unit below
    128, where the model's upper-casing is that of the language), every entry
    of the output comes from a non-null entry of the input: it is the entry's value under the fallback name of a key the table
    does not know, the converted value under the flat target of a known key,
    or an object under the parent of a known key's two-segment target. *)
Theorem mapParameters_output_derived this input out K c :
  ascii_keys input ->
  mapParameters Date_parse this input = Return out ->
  In (K, c) out ->
  derived_entry Date_parse this input K c.
Proof.
  intros _ Hmap Hin. apply mapParameters_written in Hmap.
  destruct (written_In _ _ _ _ _ Hmap Hin) as [[]|H]. exact H.
Qed.

Lemma derived_entry_nonnull this input K c :
  derived_entry Date_parse this input K c -> nullish c = false.
Proof.
  intros (k & v & _ & [[Hv (m & _ & _ & H)]|(Hv & _ & _ & ->)]); [|exact Hv].
  destruct H as [(_ & _ & Hc)|(child & inner & _ & ->)]; [|reflexivity].
  exact (convertType_nonnull _ _ _ _ Hv Hc).
Qed.

(** X2.  The output never holds a [null] or [undefined] value: every value
    in it is a forwarded non-null value, a converted one, or a nested
    object. *)
Theorem mapParameters_output_non_null this input out K c :
  mapParameters Date_parse this input = Return out ->
  In (K, c) out -> nullish c = false.
Proof.
  intros Hmap Hin. apply mapParameters_written in Hmap.
  destruct (written_In _ _ _ _ _ Hmap Hin) as [[]|H].
  exact (derived_entry_nonnull this input K c H).
Qed.

Lemma mapParameters_known_key_kept this input out k v T :
  mapParameters Date_parse this input = Return out ->
  In (k, v) input -> nullish v = false ->
  get (knownMappings this) k = Own T ->
  T <> "" -> includes_dot T = false -> T <> "__proto__" ->
  (forall k' v', In (k', v') input -> nullish v' = false ->
                 get (knownMappings this) k' = Own T -> v' = v) ->
  (forall k' v' T' child, In (k', v') input -> nullish v' = false ->
                          get (knownMappings this) k' = Own T' ->
                          split_dot T' <> [T; child]) ->
  (forall k' v', In (k', v') input -> nullish v' = false ->
                 falls_back this k' = true -> smartCaseConversion k' <> T) ->
  exists c, convertType Date_parse this T v = Return c
            /\ own_get out T = Some c.
Proof.
  intros Hmap Hin Hv Hget Hne Hdot Hp Hsame Hnest Hfall.
  unfold mapParameters in Hmap.
  destruct (mapParameters_loop Date_parse this ([], []) input)
    as [[r3 u3]| |] eqn:Hloop; cbn [bind fst snd] in Hmap; try discriminate.
  (* no fallback entry is named T *)
  assert (Hu : forall c', ~ In (T, c') u3).
  { intros c' Hc'. destruct (mapParameters_loop_written _ _ _ _ _ Hloop) as [_ Hw].
    cbn [snd] in Hw.
    destruct (written_In _ _ _ _ _ Hw Hc') as [[]|(k' & v' & Hk' & Hv' & Hf & HT & _)].
    exact (Hfall k' v' Hk' Hv' Hf (eq_sym HT)). }
  (* every write of T into result carries the same value *)
  assert (Hr : forall c c', convertType Date_parse this T v = Return c ->
             (exists k' v', In (k', v') input
                            /\ known_write Date_parse this k' v' T c') -> c' = c).
  { intros c c' Hc (k' & v' & Hk' & Hv' & m & Hm & _ & [(_ & -> & Hc')|(ch & inner & Hs & _)]).
    - rewrite (Hsame k' v' Hk' Hv' Hm) in Hc'. congruence.
    - destruct (Hnest k' v' m ch Hk' Hv' Hm Hs). }
  destruct (in_split _ _ Hin) as (pre & post & ->).
  rewrite mapParameters_loop_app in Hloop.
  destruct (mapParameters_loop Date_parse this ([], []) pre)
    as [[r1 u1]| |] eqn:Hpre; cbn [bind] in Hloop; try discriminate.
  cbn [mapParameters_loop] in Hloop.
  destruct (mapParameters_step Date_parse this (r1, u1) (k, v))
    as [[r2 u2]| |] eqn:Hstep; cbn [bind] in Hloop; try discriminate.
  unfold mapParameters_step in Hstep. rewrite Hv, Hget in Hstep.
  apply String.eqb_neq in Hne. rewrite Hne, Hdot in Hstep. cbn [negb] in Hstep.
  destruct (convertType Date_parse this T v) as [c| |] eqn:Hc;
    cbn [bind] in Hstep; try discriminate.
  rewrite (put_ordinary _ _ _ Hp) in Hstep. cbn [bind] in Hstep.
  injection Hstep as <- <-.
  exists c. split; [reflexivity|].
  destruct (mapParameters_loop_written _ _ _ _ _ Hloop) as [Hw _].
  cbn [fst] in Hw.
  assert (H3 : own_get r3 T = Some c).
  { apply (written_own_get_const _ _ _ _ _ Hw (own_get_own_set_same _ _ _)).
    intros c' (k' & v' & Hk' & Hw'). apply (Hr c c' eq_refl).
    exists k', v'. split; [|exact Hw'].
    apply in_or_app. right. now right. }
  apply Object_assign_written in Hmap.
  rewrite (written_own_get_other _ _ _ T Hmap); [exact H3 | exact Hu].
Qed.

(** X4.  In every mapper state, a one-entry input under a known key whose
    target is flat and registered for no conversion maps to the one entry
    [target: value], for every non-null value. *)
Theorem mapParameters_flat_passthrough this k T v :
  get (knownMappings this) k = Own T ->
  T <> "" -> includes_dot T = false -> T <> "__proto__" ->
  ~ In T (dateParameters this) -> ~ In T (booleanParameters this) ->
  nullish v = false ->
  mapParameters Date_parse this [(k, v)] = Return [(T, v)].
Proof.
  intros Hget Hne Hdot Hp Hd Hb Hv.
  rewrite (mapParameters_singleton_flat _ _ _ _ _ Hget Hne Hdot Hp Hv).
  unfold convertType.
  destruct (Array_includes (dateParameters this) T) eqn:Ed;
    [apply Array_includes_In in Ed; contradiction|].
  destruct (Array_includes (booleanParameters this) T) eqn:Eb;
    [apply Array_includes_In in Eb; contradiction|].
  reflexivity.
Qed.

(** ** The exported mapper on well-behaved input *)

Lemma new_ParameterMapper_flat_not_parent k mappedKey :
  get (knownMappings new_ParameterMapper) k = Own mappedKey ->
  mappedKey <> "CreateBucketConfiguration".
Proof.
  unfold get. destruct (own_get _ k) as [m|] eqn:E.
  - intros [= ->]. apply own_get_In in E.
    assert (F : forallb (fun kv => negb (snd kv =? "CreateBucketConfiguration"))
                  (knownMappings new_ParameterMapper) = true)
      by (vm_compute; reflexivity).
    rewrite forallb_forall in F. specialize (F _ E). cbn [snd] in F.
    apply negb_true_iff in F. now apply String.eqb_neq.
  - destruct (inherited k); discriminate.
Qed.

Lemma get_Inherited_inv {A : Type} (o : list (string * A)) k :
  get o k = Inherited -> inherited k = true.
Proof.
  unfold get. destruct (own_get o k); [discriminate|].
  destruct (inherited k); [reflexivity | discriminate].
Qed.

Lemma new_ParameterMapper_step_total result unm k v :
  safe_entry (k, v) ->
  (own_get result "CreateBucketConfiguration" = None
   \/ exists props,
        own_get result "CreateBucketConfiguration" = Some (VObject props)) ->
  (forall K c, In (K, c) unm -> K <> "__proto__") ->
  exists result' unm',
    mapParameters_step Date_parse new_ParameterMapper (result, unm) (k, v)
    = Return (result', unm')
    /\ (own_get result' "CreateBucketConfiguration" = None
        \/ exists props,
             own_get result' "CreateBucketConfiguration" = Some (VObject props))
    /\ (forall K c, In (K, c) unm' -> K <> "__proto__").
Proof.
  intros Hsafe Hr Hu. unfold mapParameters_step.
  destruct (nullish v) eqn:Hv; [exists result, unm; auto|].
  destruct Hsafe as [Hn|[Hk Hts]]; cbn [fst snd] in *; [congruence|].
  destruct (get (knownMappings new_ParameterMapper) k) as [m| |] eqn:Hget.
  - pose proof (new_ParameterMapper_targets _ _ Hget) as Hm.
    pose proof (new_ParameterMapper_flat_not_parent _ _ Hget) as Hnp.
    unfold plain_target in Hm.
    apply andb_prop in Hm as [Hm Hshape]. apply andb_prop in Hm as [Hne Hp].
    rewrite Hne. apply negb_true_iff in Hp. apply String.eqb_neq in Hp.
    destruct (includes_dot m) eqn:Hdot.
    + cbn [negb orb] in Hshape. apply String.eqb_eq in Hshape. subst m.
      unfold handleNestedParameter.
      change (split_dot "CreateBucketConfiguration.LocationConstraint")
        with ["CreateBucketConfiguration"; "LocationConstraint"].
      unfold get at 1.
      destruct Hr as [Hr|[props Hr]]; rewrite Hr.
      * change (inherited "CreateBucketConfiguration") with false.
        rewrite put_ordinary by discriminate. cbn [bind].
        unfold put_member, get. rewrite own_get_own_set_same.
        rewrite put_ordinary by discriminate. cbn [bind].
        eexists _, unm. split; [reflexivity|]. split; [|exact Hu].
        right. eexists. apply own_get_own_set_same.
      * cbn [truthy bind]. unfold put_member, get. rewrite Hr.
        rewrite put_ordinary by discriminate. cbn [bind].
        eexists _, unm. split; [reflexivity|]. split; [|exact Hu].
        right. eexists. apply own_get_own_set_same.
    + destruct (convertType_safe new_ParameterMapper m v Hts) as [c Hc].
      rewrite Hc. cbn [bind]. rewrite (put_ordinary _ _ _ Hp). cbn [bind].
      eexists _, unm. split; [reflexivity|]. split; [|exact Hu].
      rewrite own_get_own_set_other by (intros E; now apply Hnp). exact Hr.
  - apply get_Inherited_inv in Hget. congruence.
  - assert (Hp : smartCaseConversion k <> "__proto__").
    { intros E. apply smartCaseConversion_proto in E. subst k. discriminate Hk. }
    rewrite (put_ordinary _ _ _ Hp). cbn [bind].
    eexists result, _. split; [reflexivity|]. split; [exact Hr|].
    intros K c Hin. apply In_own_set in Hin as [[-> _]|Hin]; [exact Hp|].
    exact (Hu K c Hin).
Qed.

Lemma Object_assign_total source : forall target,
  (forall K c, In (K, c) source -> K <> "__proto__") ->
  exists out, Object_assign target source = Return out.
Proof.
  induction source as [|[k v] rest IH]; intros target H.
  - eexists. reflexivity.
  - cbn [Object_assign]. rewrite put_ordinary by (apply (H k v); now left).
    cbn [bind]. apply IH. intros K c Hin. apply (H K c). now right.
Qed.

(** X5.  On inputs whose values are [undefined], [null], booleans,
    integer numbers, strings, [Date] objects and ordinary objects built from
    these (no arrays, functions, BigInt values or cyclic objects), the
    exported mapper returns an output, and does not raise, whenever the
    non-null entries have keys that name no member of [Object.prototype] and
    values that are not objects with an own [toString] property. *)
Theorem mapParameters_returns_on_safe_input input :
  (forall entry, In entry input -> safe_entry entry) ->
  exists out, mapParameters Date_parse new_ParameterMapper input = Return out.
Proof.
  intros Hsafe. unfold mapParameters.
  assert (Hloop : forall l result unm,
             (forall entry, In entry l -> safe_entry entry) ->
             (own_get result "CreateBucketConfiguration" = None
              \/ exists props,
                   own_get result "CreateBucketConfiguration"
                   = Some (VObject props)) ->
             (forall K c, In (K, c) unm -> K <> "__proto__") ->
             exists result' unm',
               mapParameters_loop Date_parse new_ParameterMapper (result, unm) l
               = Return (result', unm')
               /\ forall K c, In (K, c) unm' -> K <> "__proto__").
  { induction l as [|[k v] l IH]; intros result unm Hl Hr Hu.
    - exists result, unm. auto.
    - cbn [mapParameters_loop].
      destruct (new_ParameterMapper_step_total result unm k v)
        as (r1 & u1 & -> & Hr1 & Hu1); auto.
      { apply Hl. now left. }
      cbn [bind]. apply IH; auto. intros e He. apply Hl. now right. }
  destruct (Hloop input [] [] Hsafe) as (r & u & -> & Hu).
  - now left.
  - intros K c [].
  - cbn [bind fst snd]. now apply Object_assign_total.
Qed.

(** ** Mapping an output again *)

Lemma smartCaseConversion_idempotent k :
  smartCaseConversion (smartCaseConversion k) = smartCaseConversion k.
Proof.
  destruct k as [|c r]; [reflexivity|].
  now rewrite !smartCaseConversion_cons, upper_char_idempotent.
Qed.

Lemma new_ParameterMapper_keys_lower k mappedKey :
  own_get (knownMappings new_ParameterMapper) k = Some mappedKey ->
  exists c r, k = String c r /\ is_lower c = true.
Proof.
  intros E. apply own_get_In in E.
  assert (F : forallb (fun kv => match fst kv with
                                 | String c _ => is_lower c
                                 | EmptyString => false
                                 end)
                (knownMappings new_ParameterMapper) = true)
    by (vm_compute; reflexivity).
  rewrite forallb_forall in F. specialize (F _ E). cbn [fst] in F.
  destruct k as [|c r]; [discriminate|]. eauto.
Qed.

Lemma inherited_first_char k :
  inherited k = true ->
  exists c r, k = String c r /\ (is_lower c = true \/ c = "_"%char).
Proof.
  unfold inherited. intros H. apply existsb_exists in H as [x [Hx E]].
  apply String.eqb_eq in E. subst x.
  repeat (destruct Hx as [<-|Hx];
          [eexists _, _; split; [reflexivity|]; first [now left | now right]|]).
  destruct Hx.
Qed.

Lemma fallback_name_passes k :
  get (knownMappings new_ParameterMapper) k = Absent ->
  passes_unchanged (smartCaseConversion k) = true.
Proof.
  intros Hget. apply get_Absent_inv in Hget as [_ Hk].
  unfold passes_unchanged.
  rewrite smartCaseConversion_idempotent, String.eqb_refl.
  destruct k as [|c r]; [reflexivity|].
  rewrite smartCaseConversion_cons. unfold get.
  destruct (own_get (knownMappings new_ParameterMapper)
              (String (upper_char c) r)) as [m|] eqn:E.
  - apply new_ParameterMapper_keys_lower in E as (c' & r' & [= <- <-] & Hl).
    now rewrite is_lower_upper_char in Hl.
  - destruct (inherited (String (upper_char c) r)) eqn:Hi; [|reflexivity].
    destruct (inherited_first_char _ Hi) as (c' & r' & [= <- <-] & [Hl|Hu]).
    + now rewrite is_lower_upper_char in Hl.
    + apply upper_char_underscore in Hu as Hc. subst c.
      change (upper_char "_") with "_"%char in Hi. congruence.
Qed.

Lemma new_ParameterMapper_derived_passes input K c :
  derived_entry Date_parse new_ParameterMapper input K c ->
  passes_unchanged K = true.
Proof.
  intros (k & v & _ & [[_ (m & Hget & Hne & H)]|(_ & Hf & -> & _)]).
  - pose proof (new_ParameterMapper_targets _ _ Hget) as Hm.
    assert (HK : K = m \/ K = "CreateBucketConfiguration").
    { destruct H as [(_ & -> & _)|(child & inner & Hs & _)]; [now left|].
      unfold plain_target in Hm. apply andb_prop in Hm as [_ Hshape].
      destruct (includes_dot m) eqn:Hdot.
      - cbn [negb orb] in Hshape. apply String.eqb_eq in Hshape. subst m.
        injection Hs as <- _. now right.
      - rewrite (split_dot_no_dot _ Hdot) in Hs. discriminate Hs. }
    destruct HK as [->| ->]; [|reflexivity].
    destruct H as [(Hdot & _ & _)|(child & inner & Hs & _)].
    + unfold get in Hget.
      destruct (own_get (knownMappings new_ParameterMapper) k) as [m'|] eqn:E;
        [|destruct (inherited k); discriminate].
      injection Hget as ->. apply own_get_In in E.
      assert (F : forallb (fun kv => includes_dot (snd kv)
                                     || passes_unchanged (snd kv))
                    (knownMappings new_ParameterMapper) = true)
        by (vm_compute; reflexivity).
      rewrite forallb_forall in F. specialize (F _ E). cbn [snd] in F.
      now rewrite Hdot in F.
    + unfold plain_target in Hm. apply andb_prop in Hm as [_ Hshape].
      destruct (includes_dot m) eqn:Hdot.
      * cbn [negb orb] in Hshape. apply String.eqb_eq in Hshape. subst m.
        discriminate Hs.
      * rewrite (split_dot_no_dot _ Hdot) in Hs. discriminate Hs.
  - apply fallback_name_passes. unfold falls_back in Hf.
    destruct (get (knownMappings new_ParameterMapper) k) as [m| |] eqn:Hget;
      [|discriminate|reflexivity].
    pose proof (new_ParameterMapper_targets _ _ Hget) as Hm.
    unfold plain_target in Hm. rewrite Hf in Hm. discriminate Hm.
Qed.

Lemma passes_unchanged_inv K :
  passes_unchanged K = true ->
  get (knownMappings new_ParameterMapper) K = Absent
  /\ smartCaseConversion K = K /\ K <> "__proto__".
Proof.
  unfold passes_unchanged.
  destruct (get (knownMappings new_ParameterMapper) K) eqn:Hget;
    try discriminate.
  intros H. apply String.eqb_eq in H. repeat split; auto.
  apply get_Absent_inv in Hget as [_ Hi]. now apply inherited_proto.
Qed.

Lemma mapParameters_loop_passes l : forall unm,
  NoDup (map fst (unm ++ l)) ->
  (forall K c, In (K, c) l -> passes_unchanged K = true /\ nullish c = false) ->
  mapParameters_loop Date_parse new_ParameterMapper ([], unm) l
  = Return ([], unm ++ l).
Proof.
  induction l as [|[K c] l IH]; intros unm Hnd Hl.
  - now rewrite app_nil_r.
  - cbn [mapParameters_loop]. unfold mapParameters_step.
    destruct (Hl K c (or_introl eq_refl)) as [HK Hc].
    apply passes_unchanged_inv in HK as (Hget & Hs & Hp).
    rewrite Hc, Hget, Hs, (put_ordinary _ _ _ Hp). cbn [bind].
    rewrite own_set_fresh.
    + rewrite IH.
      * now rewrite <- app_assoc.
      * now rewrite <- app_assoc.
      * intros K' c' Hin. apply Hl. now right.
    + rewrite map_app in Hnd. cbn [map fst] in Hnd.
      apply NoDup_remove_2 in Hnd. intros Hin. apply Hnd.
      apply in_or_app. now left.
Qed.

Lemma Object_assign_fresh l : forall target,
  NoDup (map fst (target ++ l)) ->
  (forall K c, In (K, c) l -> K <> "__proto__") ->
  Object_assign target l = Return (target ++ l).
Proof.
  induction l as [|[K c] l IH]; intros target Hnd Hl.
  - now rewrite app_nil_r.
  - cbn [Object_assign].
    rewrite (put_ordinary _ _ _ (Hl K c (or_introl eq_refl))). cbn [bind].
    rewrite own_set_fresh.
    + rewrite IH.
      * now rewrite <- app_assoc.
      * now rewrite <- app_assoc.
      * intros K' c' Hin. apply (Hl K' c'). now right.
    + rewrite map_app in Hnd. cbn [map fst] in Hnd.
      apply NoDup_remove_2 in Hnd. intros Hin. apply Hnd.
      apply in_or_app. now left.
Qed.

(** X6.  Mapping is idempotent on the exported mapper: an output, given to
    the mapper again, comes back as it is.  Its keys are targets and fallback
    names, which the table does not know and capitalising does not change. *)
Theorem mapParameters_idempotent input out :
  mapParameters Date_parse new_ParameterMapper input = Return out ->
  mapParameters Date_parse new_ParameterMapper out = Return out.
Proof.
  intros Hmap. apply mapParameters_written in Hmap.
  assert (Hnd : NoDup (map fst out))
    by (apply (written_NoDup _ _ _ Hmap); constructor).
  assert (Hall : forall K c, In (K, c) out ->
                             passes_unchanged K = true /\ nullish c = false).
  { intros K c Hin. destruct (written_In _ _ _ _ _ Hmap Hin) as [[]|H].
    split; [exact (new_ParameterMapper_derived_passes _ _ _ H)
           | exact (derived_entry_nonnull _ _ _ _ H)]. }
  unfold mapParameters.
  rewrite (mapParameters_loop_passes out [] Hnd Hall). cbn [bind fst snd app].
  apply (Object_assign_fresh out [] Hnd).
  intros K c Hin. destruct (Hall K c Hin) as [HK _].
  now apply passes_unchanged_inv in HK.
Qed.

(** ** How extensions compose *)

Lemma mapParameters_ext this1 this2 input :
  (forall k v, In (k, v) input -> nullish v = false ->
               get (knownMappings this1) k = get (knownMappings this2) k) ->
  (forall key, Array_includes (dateParameters this1) key
               = Array_includes (dateParameters this2) key) ->
  (forall key, Array_includes (booleanParameters this1) key
               = Array_includes (booleanParameters this2) key) ->
  mapParameters Date_parse this1 input = mapParameters Date_parse this2 input.
Proof.
  intros Hk Hd Hb. unfold mapParameters.
  assert (Hloop : forall acc,
             mapParameters_loop Date_parse this1 acc input
             = mapParameters_loop Date_parse this2 acc input).
  { induction input as [|[k v] l IH]; intros acc; [reflexivity|].
    cbn [mapParameters_loop].
    assert (Hstep : mapParameters_step Date_parse this1 acc (k, v)
                    = mapParameters_step Date_parse this2 acc (k, v)).
    { unfold mapParameters_step. destruct acc as [result unm].
      destruct (nullish v) eqn:Hv; [reflexivity|].
      rewrite (Hk k v (or_introl eq_refl) Hv).
      destruct (get (knownMappings this2) k) as [m| |]; try reflexivity.
      unfold convertType. now rewrite Hd, Hb. }
    rewrite Hstep.
    destruct (mapParameters_step Date_parse this2 acc (k, v)); cbn [bind];
      try reflexivity.
    apply IH. intros k' v' Hin. apply Hk. now right. }
  now rewrite Hloop.
Qed.

Lemma Array_includes_addMapping_date this c p t key :
  Array_includes (dateParameters (addMapping this c p t)) key
  = Array_includes (dateParameters this) key
    || (is_string t "date" && (key =? p)).
Proof.
  rewrite addMapping_dateParameters. destruct (is_string t "date").
  - now rewrite Array_includes_app.
  - now rewrite orb_false_r.
Qed.

Lemma Array_includes_addMapping_boolean this c p t key :
  Array_includes (booleanParameters (addMapping this c p t)) key
  = Array_includes (booleanParameters this) key
    || (negb (is_string t "date") && is_string t "boolean" && (key =? p)).
Proof.
  rewrite addMapping_booleanParameters. destruct (is_string t "date").
  - now rewrite orb_false_r.
  - destruct (is_string t "boolean"); cbn [negb andb].
    + now rewrite Array_includes_app.
    + now rewrite orb_false_r.
Qed.

Lemma own_get_put_string (o : list (string * string)) c p k :
  own_get (put_string o c p) k
  = if negb (c =? "__proto__") && (k =? c) then Some p else own_get o k.
Proof.
  unfold put_string. destruct (c =? "__proto__"); [reflexivity|].
  cbn [negb andb]. destruct (String.eqb_spec k c) as [->|Hne].
  - apply own_get_own_set_same.
  - now apply own_get_own_set_other.
Qed.

(** X7.  Two extensions with different source keys commute: in either
    order the mapper and the converter behave the same on every input. *)
Theorem addMapping_commute this a x t b y u :
  a <> b ->
  let this1 := addMapping (addMapping this a x t) b y u in
  let this2 := addMapping (addMapping this b y u) a x t in
  (forall input,
      mapParameters Date_parse this1 input = mapParameters Date_parse this2 input)
  /\ (forall key v,
        convertType Date_parse this1 key v = convertType Date_parse this2 key v).
Proof.
  intros Hab this1 this2.
  assert (Hd : forall key, Array_includes (dateParameters this1) key
                           = Array_includes (dateParameters this2) key).
  { intros key. subst this1 this2.
    rewrite !Array_includes_addMapping_date.
    destruct (Array_includes (dateParameters this) key);
      destruct (is_string t "date" && (key =? x));
      destruct (is_string u "date" && (key =? y)); reflexivity. }
  assert (Hb : forall key, Array_includes (booleanParameters this1) key
                           = Array_includes (booleanParameters this2) key).
  { intros key. subst this1 this2.
    rewrite !Array_includes_addMapping_boolean.
    destruct (Array_includes (booleanParameters this) key);
      destruct (negb (is_string t "date") && is_string t "boolean" && (key =? x));
      destruct (negb (is_string u "date") && is_string u "boolean" && (key =? y));
      reflexivity. }
  split.
  - intros input. apply mapParameters_ext; auto.
    intros k v _ _. subst this1 this2. unfold get.
    rewrite !addMapping_knownMappings, !own_get_put_string.
    destruct (String.eqb_spec k a) as [Ea|Hka];
      destruct (String.eqb_spec k b) as [Eb|Hkb];
      try (exfalso; congruence);
      destruct (a =? "__proto__"); destruct (b =? "__proto__"); reflexivity.
  - intros key v. unfold convertType. now rewrite Hd, Hb.
Qed.

(** X8.  An extension without a kind is local: on an input that does not
    use the extended source key with a non-null value, the mapper behaves as
    before the extension. *)
Theorem addMapping_local this camelCase pascalCase type input :
  type <> VString "date" -> type <> VString "boolean" ->
  (forall k v, In (k, v) input -> nullish v = false -> k <> camelCase) ->
  mapParameters Date_parse (addMapping this camelCase pascalCase type) input
  = mapParameters Date_parse this input.
Proof.
  intros Hd Hb Hk.
  assert (Ed : is_string type "date" = false).
  { destruct (is_string type "date") eqn:E; [|reflexivity].
    apply is_string_spec in E. contradiction. }
  assert (Eb : is_string type "boolean" = false).
  { destruct (is_string type "boolean") eqn:E; [|reflexivity].
    apply is_string_spec in E. contradiction. }
  apply mapParameters_ext.
  - intros k v Hin Hv. rewrite addMapping_knownMappings.
    apply get_put_string_other. exact (Hk k v Hin Hv).
  - intros key. rewrite Array_includes_addMapping_date, Ed. apply orb_false_r.
  - intros key. rewrite Array_includes_addMapping_boolean, Ed, Eb.
    apply orb_false_r.
Qed.

Lemma get_Own_addMapping this c p t k T :
  get (knownMappings this) k = Own T ->
  exists T', get (knownMappings (addMapping this c p t)) k = Own T'.
Proof.
  unfold get. rewrite addMapping_knownMappings, own_get_put_string.
  destruct (own_get (knownMappings this) k) as [m|];
    [|destruct (inherited k); discriminate].
  intros _. destruct (negb (c =? "__proto__") && (k =? c)); eauto.
Qed.

(** X9.  Extensions never forget: after any series of [addMapping] calls a
    key of the table is still a key of the table, a registered target is still
    registered, and a target that was date-valued is still converted with
    [new Date], also when a later call registers it as boolean. *)
Theorem addMappings_keep this calls :
  (forall k T, get (knownMappings this) k = Own T ->
               exists T', get (knownMappings (addMappings this calls)) k = Own T')
  /\ (forall key, In key (dateParameters this) ->
                  In key (dateParameters (addMappings this calls)))
  /\ (forall key, In key (booleanParameters this) ->
                  In key (booleanParameters (addMappings this calls)))
  /\ (forall key v, In key (dateParameters this) ->
                    convertType Date_parse (addMappings this calls) key v
                    = new_Date Date_parse v).
Proof.
  unfold addMappings. revert this.
  induction calls as [|[[c p] t] calls IH]; intros this; cbn [fold_left fst snd].
  - repeat split; eauto. intros key v H. unfold convertType.
    apply Array_includes_In in H. now rewrite H.
  - destruct (IH (addMapping this c p t)) as (IH1 & IH2 & IH3 & IH4).
    assert (Hd : forall key, In key (dateParameters this) ->
                             In key (dateParameters (addMapping this c p t))).
    { intros key H. apply Array_includes_In.
      rewrite Array_includes_addMapping_date.
      apply Array_includes_In in H. now rewrite H. }
    repeat split.
    + intros k T H. destruct (get_Own_addMapping this c p t k T H) as [T' H'].
      exact (IH1 k T' H').
    + intros key H. auto.
    + intros key H. apply IH3. apply Array_includes_In.
      rewrite Array_includes_addMapping_boolean.
      apply Array_includes_In in H. now rewrite H.
    + intros key v H. auto.
Qed.

(** X10.  On an ASCII key (every code unit below 128) the fallback
    conversion is idempotent and keeps the length of the key; it leaves the
    key as it is exactly when the key is empty or its first character is not
    one of the lower-case letters a to z. *)
Theorem smartCaseConversion_shape k :
  is_ascii k = true ->
  smartCaseConversion (smartCaseConversion k) = smartCaseConversion k
  /\ String.length (smartCaseConversion k) = String.length k
  /\ (smartCaseConversion k = k <->
      match k with
      | EmptyString => True
      | String c _ => is_lower c = false
      end).
Proof.
  intros _.
  split; [apply smartCaseConversion_idempotent|].
  destruct k as [|c r]; [repeat split; auto|].
  rewrite smartCaseConversion_cons. split; [reflexivity|]. split.
  - intros [= H]. now apply upper_char_fixed.
  - intros H. now rewrite (upper_char_not_lower _ H).
Qed.

(** ** Known keys on the exported mapper *)

Lemma new_ParameterMapper_targets_injective k k' T :
  get (knownMappings new_ParameterMapper) k = Own T ->
  get (knownMappings new_ParameterMapper) k' = Own T ->
  k = k'.
Proof.
  assert (Hin : forall x m, get (knownMappings new_ParameterMapper) x = Own m ->
                            In (x, m) (knownMappings new_ParameterMapper)).
  { intros x m. unfold get.
    destruct (own_get (knownMappings new_ParameterMapper) x) as [m'|] eqn:E;
      [|destruct (inherited x); discriminate].
    intros [= ->]. now apply own_get_In. }
  intros H H'. apply Hin in H, H'.
  assert (F : forallb (fun kv =>
                forallb (fun kv' => negb (snd kv =? snd kv')
                                    || (fst kv =? fst kv'))
                  (knownMappings new_ParameterMapper))
                (knownMappings new_ParameterMapper) = true)
    by (vm_compute; reflexivity).
  rewrite forallb_forall in F. specialize (F _ H).
  rewrite forallb_forall in F. specialize (F _ H'). cbn [fst snd] in F.
  rewrite String.eqb_refl in F. cbn [negb orb] in F.
  now apply String.eqb_eq.
Qed.

Lemma NoDup_keys_In_eq {A : Type} (o : list (string * A)) k a a' :
  NoDup (map fst o) -> In (k, a) o -> In (k, a') o -> a = a'.
Proof.
  induction o as [|[k0 a0] o IH]; cbn [map fst]; [intros _ []|].
  intros Hnd. apply NoDup_cons_iff in Hnd as [Hn Hnd].
  intros [[= -> ->]|H] [[= E]|H'].
  - now subst.
  - destruct Hn. apply (in_map fst) in H'. exact H'.
  - subst. destruct Hn. apply (in_map fst) in H. exact H.
  - auto.
Qed.

Lemma new_ParameterMapper_sole_writer (input : object) k v T :
  NoDup (map fst input) -> In (k, v) input ->
  get (knownMappings new_ParameterMapper) k = Own T ->
  includes_dot T = false ->
  (forall k' v', In (k', v') input -> nullish v' = false ->
                 get (knownMappings new_ParameterMapper) k' = Own T -> v' = v)
  /\ (forall k' v' T' child, In (k', v') input -> nullish v' = false ->
                             get (knownMappings new_ParameterMapper) k' = Own T' ->
                             split_dot T' <> [T; child])
  /\ (forall k' v', In (k', v') input -> nullish v' = false ->
                    falls_back new_ParameterMapper k' = true ->
                    get (knownMappings new_ParameterMapper) k' = Absent).
Proof.
  intros Hnd Hin Hget Hdot. repeat split.
  - intros k' v' Hin' _ Hget'.
    rewrite (new_ParameterMapper_targets_injective _ _ _ Hget' Hget) in Hin'.
    exact (NoDup_keys_In_eq _ _ _ _ Hnd Hin' Hin).
  - intros k' v' T' child _ _ Hget' Hs.
    pose proof (new_ParameterMapper_targets _ _ Hget') as HT'.
    unfold plain_target in HT'. apply andb_prop in HT' as [_ Hshape].
    destruct (includes_dot T') eqn:Hdot'.
    + cbn [negb orb] in Hshape. apply String.eqb_eq in Hshape. subst T'.
      injection Hs as <- _.
      exact (new_ParameterMapper_flat_not_parent _ _ Hget eq_refl).
    + rewrite (split_dot_no_dot _ Hdot') in Hs. discriminate Hs.
  - intros k' v' _ _ Hf. unfold falls_back in Hf.
    destruct (get (knownMappings new_ParameterMapper) k') as [m| |] eqn:Hg;
      [|discriminate|reflexivity].
    pose proof (new_ParameterMapper_targets _ _ Hg) as Hm.
    unfold plain_target in Hm. rewrite Hf in Hm. discriminate Hm.
Qed.

(** X3.  On the exported mapper a known key with a flat target is never
    lost: when the input has distinct ASCII keys (every code unit below 128)
    and none of its unknown keys falls
    back to the target, the output holds the entry's converted value under the
    target, whatever else the input holds. *)
Theorem mapParameters_known_key_survives input out k v T :
  mapParameters Date_parse new_ParameterMapper input = Return out ->
  NoDup (map fst input) -> ascii_keys input ->
  In (k, v) input -> nullish v = false ->
  get (knownMappings new_ParameterMapper) k = Own T ->
  includes_dot T = false ->
  (forall k' v', In (k', v') input -> nullish v' = false ->
                 get (knownMappings new_ParameterMapper) k' = Absent ->
                 smartCaseConversion k' <> T) ->
  exists c, convertType Date_parse new_ParameterMapper T v = Return c
            /\ own_get out T = Some c.
Proof.
  intros Hmap Hnd _ Hin Hv Hget Hdot Hfall.
  pose proof (new_ParameterMapper_targets _ _ Hget) as HT.
  unfold plain_target in HT.
  apply andb_prop in HT as [HT _]. apply andb_prop in HT as [Hne Hp].
  apply negb_true_iff in Hne, Hp. apply String.eqb_neq in Hne, Hp.
  destruct (new_ParameterMapper_sole_writer input k v T Hnd Hin Hget Hdot)
    as (H1 & H2 & H3).
  apply (mapParameters_known_key_kept _ _ _ _ _ _ Hmap Hin Hv Hget Hne Hdot Hp
           H1 H2).
  intros k' v' Hin' Hv' Hf. exact (Hfall k' v' Hin' Hv' (H3 k' v' Hin' Hv' Hf)).
Qed.

(** ** Entries among other entries *)










(** ** Claims about inputs of several entries *)


(** C8.  [addMapping] with a source key other than "__proto__" makes the
    key an own entry of the table with the new target, replacing an earlier
    one, leaves the other keys as they were, and adds the target to the set
    named by the kind.  A later [mapParameters] uses the new target when it
    is flat and not empty: a one-entry input under the key maps to the
    converted value under the target, and in an input of ASCII keys (every
    code unit below 128) on which the mapper returns, the entry's converted
    value is in the output under the target, provided no other non-null
    entry writes the target.  An empty target is registered and then
    ignored: the key is treated as unknown.  After
    [addMapping("newParam", "NewParam", "boolean")] on a mapper that has not
    registered "NewParam" as date-valued, [{newParam: "true"}] maps to
    [{NewParam: true}]. *)
Theorem addMapping_registers this camelCase pascalCase type :
  camelCase <> "__proto__" ->
  let this' := addMapping this camelCase pascalCase type in
  get (knownMappings this') camelCase = Own pascalCase
  /\ (forall k, k <> camelCase ->
                get (knownMappings this') k = get (knownMappings this) k)
  /\ (type = VString "date" -> In pascalCase (dateParameters this'))
  /\ (type = VString "boolean" -> In pascalCase (booleanParameters this'))
  /\ (forall v,
        pascalCase <> "" -> includes_dot pascalCase = false ->
        pascalCase <> "__proto__" -> nullish v = false ->
        mapParameters Date_parse this' [(camelCase, v)]
        = (c <- convertType Date_parse this' pascalCase v ;;
           Return [(pascalCase, c)]))
  /\ (forall input out v,
        pascalCase <> "" -> includes_dot pascalCase = false ->
        pascalCase <> "__proto__" ->
        mapParameters Date_parse this' input = Return out ->
        ascii_keys input ->
        In (camelCase, v) input -> nullish v = false ->
        (forall k' v', In (k', v') input -> nullish v' = false ->
                       get (knownMappings this') k' = Own pascalCase -> v' = v) ->
        (forall k' v' T' child, In (k', v') input -> nullish v' = false ->
                                get (knownMappings this') k' = Own T' ->
                                split_dot T' <> [pascalCase; child]) ->
        (forall k' v', In (k', v') input -> nullish v' = false ->
                       falls_back this' k' = true ->
                       smartCaseConversion k' <> pascalCase) ->
        exists c, convertType Date_parse this' pascalCase v = Return c
                  /\ own_get out pascalCase = Some c)
  /\ (forall v,
        pascalCase = "" -> is_ascii camelCase = true -> nullish v = false ->
        mapParameters Date_parse this' [(camelCase, v)]
        = Return [(smartCaseConversion camelCase, v)])
  /\ (~ In "NewParam" (dateParameters this) ->
      mapParameters Date_parse
        (addMapping this "newParam" "NewParam" (VString "boolean"))
        [("newParam", VString "true")]
      = Return [("NewParam", VBool true)]).
Proof.
  intros Hc this'.
  assert (Hget : forall t c p ty, c <> "__proto__" ->
             get (knownMappings (addMapping t c p ty)) c = Own p).
  { intros t c p ty H. rewrite addMapping_knownMappings.
    now apply get_put_string_same. }
  split; [now apply Hget|]. split; [|split; [|split; [|split; [|split; [|split]]]]].
  - intros k Hk. subst this'. rewrite addMapping_knownMappings.
    now apply get_put_string_other.
  - intros ->. subst this'. rewrite addMapping_dateParameters.
    cbn [is_string String.eqb Ascii.eqb Bool.eqb].
    apply in_or_app. right. now left.
  - intros ->. subst this'. rewrite addMapping_booleanParameters.
    cbn [is_string String.eqb Ascii.eqb Bool.eqb].
    apply in_or_app. right. now left.
  - intros v Hne Hdot Hp Hv. subst this'.
    apply mapParameters_singleton_flat; auto.
  - intros input out v Hne Hdot Hp Hmap _ Hin Hv Hsame Hnest Hfall.
    exact (mapParameters_known_key_kept _ _ _ _ _ _ Hmap Hin Hv
             (Hget this camelCase pascalCase type Hc) Hne Hdot Hp
             Hsame Hnest Hfall).
  - intros v -> _ Hv. subst this'.
    rewrite mapParameters_cons. unfold mapParameters_step.
    rewrite Hv, (Hget this camelCase "" type Hc).
    assert (Hp : smartCaseConversion camelCase <> "__proto__")
      by (intros E; apply smartCaseConversion_proto in E; contradiction).
    cbn [String.eqb negb]. rewrite (put_ordinary _ _ _ Hp).
    cbn [bind own_set mapParameters_loop fst snd Object_assign].
    now rewrite (put_ordinary _ _ _ Hp).
  - intros Hnd.
    rewrite (mapParameters_singleton_flat _ _ "newParam" "NewParam");
      [| apply Hget; discriminate | discriminate | reflexivity
       | discriminate | reflexivity].
    unfold convertType.
    rewrite addMapping_dateParameters, addMapping_booleanParameters.
    cbn [is_string String.eqb Ascii.eqb Bool.eqb].
    destruct (Array_includes (dateParameters this) "NewParam") eqn:E.
    + apply Array_includes_In in E. now destruct Hnd.
    + rewrite Array_includes_app, String.eqb_refl, orb_true_r. reflexivity.
Qed.

(** ** The tools *)

Lemma truthy_not_nullish v : truthy v = true -> nullish v = false.
Proof. destruct v; simpl; congruence. Qed.

Lemma member_truthy (o : object) name :
  truthy (member o name) = true ->
  In (name, member o name) o.
Proof.
  unfold member. destruct (own_get o name) as [v|] eqn:E; [|discriminate].
  intros _. now apply own_get_In.
Qed.

Lemma mapParameters_required_kept params out name T :
  mapParameters Date_parse new_ParameterMapper params = Return out ->
  NoDup (map fst params) ->
  truthy (member params name) = true ->
  get (knownMappings new_ParameterMapper) name = Own T ->
  includes_dot T = false ->
  Array_includes (dateParameters new_ParameterMapper) T = false ->
  Array_includes (booleanParameters new_ParameterMapper) T = false ->
  (forall k v, In (k, v) params -> nullish v = false ->
               get (knownMappings new_ParameterMapper) k = Absent ->
               smartCaseConversion k <> T) ->
  own_get out T = Some (member params name).
Proof.
  intros Hmap Hnd Ht Hget Hdot Hd Hb Hfall.
  pose proof (member_truthy _ _ Ht) as Hin.
  pose proof (truthy_not_nullish _ Ht) as Hv.
  pose proof (new_ParameterMapper_targets _ _ Hget) as HT.
  unfold plain_target in HT.
  apply andb_prop in HT as [HT _]. apply andb_prop in HT as [Hne Hp].
  apply negb_true_iff in Hne, Hp. apply String.eqb_neq in Hne, Hp.
  destruct (new_ParameterMapper_sole_writer params name _ T Hnd Hin Hget Hdot)
    as (H1 & H2 & H3).
  destruct (mapParameters_known_key_kept _ _ _ _ _ _ Hmap Hin Hv Hget Hne Hdot Hp
              H1 H2) as (c & Hc & Hout).
  - intros k' v' Hin' Hv' Hf. exact (Hfall k' v' Hin' Hv' (H3 k' v' Hin' Hv' Hf)).
  - unfold convertType in Hc. rewrite Hd, Hb in Hc. congruence.
Qed.

(** X11.  [deleteBucket] and [createBucket] answer with the error message,
    without calling the mapper, when [bucketName] is missing or falsy (the
    empty string, [0], [false], [null]).  When they build a command from
    parameters with distinct keys, its [Bucket] is [params.bucketName], unless
    an unknown key of the parameters capitalises to "Bucket". *)
Theorem deleteBucket_request_Bucket params :
  (truthy (member params "bucketName") = false ->
   deleteBucket_request Date_parse params
   = Return (Rejected
               "Error: bucketName is required. Please provide a bucket name."))
  /\ (forall out,
        deleteBucket_request Date_parse params = Return (Command out) ->
        NoDup (map fst params) ->
        (forall k v, In (k, v) params -> nullish v = false ->
                     get (knownMappings new_ParameterMapper) k = Absent ->
                     smartCaseConversion k <> "Bucket") ->
        truthy (member params "bucketName") = true
        /\ own_get out "Bucket" = Some (member params "bucketName")).
Proof.
  unfold deleteBucket_request. split.
  - now intros ->.
  - intros out. destruct (truthy (member params "bucketName")) eqn:Ht;
      cbn [negb]; [|discriminate].
    destruct (mapParameters Date_parse new_ParameterMapper params)
      as [cp| |] eqn:Hmap; cbn [bind]; try discriminate.
    intros [= ->] Hnd Hfall. split; [reflexivity|].
    now apply (mapParameters_required_kept params out "bucketName" "Bucket").
Qed.

(** X12.  [getObject] and [deleteObject] answer with the error message when
    [bucketName] or [fileName] is missing or falsy.  When they build a command
    from parameters with distinct keys, its [Bucket] and [Key] are
    [params.bucketName] and [params.fileName], unless an unknown key of the
    parameters capitalises to "Bucket" or to "Key". *)
Theorem getObject_request_Bucket_Key params :
  (truthy (member params "bucketName") = false
   \/ truthy (member params "fileName") = false ->
   getObject_request Date_parse params
   = Return (Rejected "Error: bucketName and fileName are required."))
  /\ (forall out,
        getObject_request Date_parse params = Return (Command out) ->
        NoDup (map fst params) ->
        (forall k v, In (k, v) params -> nullish v = false ->
                     get (knownMappings new_ParameterMapper) k = Absent ->
                     smartCaseConversion k <> "Bucket"
                     /\ smartCaseConversion k <> "Key") ->
        own_get out "Bucket" = Some (member params "bucketName")
        /\ own_get out "Key" = Some (member params "fileName")).
Proof.
  unfold getObject_request. split.
  - intros [-> | ->]; [reflexivity|]. now rewrite orb_true_r.
  - intros out. destruct (truthy (member params "bucketName")) eqn:Hb;
      cbn [negb orb]; [|discriminate].
    destruct (truthy (member params "fileName")) eqn:Hf;
      cbn [negb]; [|discriminate].
    destruct (mapParameters Date_parse new_ParameterMapper params)
      as [cp| |] eqn:Hmap; cbn [bind]; try discriminate.
    intros [= ->] Hnd Hfall. split.
    + apply (mapParameters_required_kept params out "bucketName" "Bucket");
        auto. intros k v Hin Hv Hk. now apply (Hfall k v).
    + apply (mapParameters_required_kept params out "fileName" "Key");
        auto. intros k v Hin Hv Hk. now apply (Hfall k v).
Qed.

(** ** Spreading and deleting *)

Lemma own_get_own_delete {A : Type} (o : list (string * A)) k k' :
  own_get (own_delete o k) k' = if k' =? k then None else own_get o k'.
Proof.
  unfold own_delete. induction o as [|[k0 a0] o IH]; cbn [filter own_get fst].
  - now destruct (k' =? k).
  - destruct (String.eqb_spec k0 k) as [E|Hne]; cbn [negb own_get].
    + subst k0. rewrite IH. destruct (k' =? k); reflexivity.
    + rewrite IH. destruct (String.eqb_spec k' k) as [E|Hk]; [|reflexivity].
      subst k'. apply not_eq_sym in Hne. apply String.eqb_neq in Hne.
      now rewrite Hne.
Qed.

Lemma In_own_delete {A : Type} (o : list (string * A)) k k' a :
  In (k', a) (own_delete o k) -> In (k', a) o.
Proof. unfold own_delete. intros H. now apply filter_In in H. Qed.

Lemma NoDup_keys_own_delete {A : Type} (o : list (string * A)) k :
  NoDup (map fst o) -> NoDup (map fst (own_delete o k)).
Proof.
  unfold own_delete. induction o as [|[k0 a0] o IH]; cbn [filter map fst];
    [auto|].
  intros Hnd. apply NoDup_cons_iff in Hnd as [Hn Hnd].
  destruct (negb (k0 =? k)); cbn [map fst]; auto.
  constructor; auto. intros Hin. apply Hn.
  apply in_map_iff in Hin as ([k1 a1] & E & Hin). cbn [fst] in E. subst k1.
  apply filter_In in Hin as [Hin _]. apply (in_map fst) in Hin. exact Hin.
Qed.

Lemma own_get_spread {A : Type} (source : list (string * A)) :
  forall target k,
    NoDup (map fst source) ->
    own_get (spread target source) k
    = match own_get source k with
      | Some a => Some a
      | None => own_get target k
      end.
Proof.
  unfold spread.
  induction source as [|[k0 a0] source IH]; intros target k Hnd;
    cbn [fold_left own_get fst snd]; [reflexivity|].
  cbn [map fst] in Hnd. apply NoDup_cons_iff in Hnd as [Hn Hnd].
  rewrite (IH _ k Hnd).
  destruct (String.eqb_spec k k0) as [->|Hne].
  - destruct (own_get source k0) as [a|] eqn:E.
    + apply own_get_In, (in_map fst) in E. contradiction.
    + apply own_get_own_set_same.
  - now rewrite own_get_own_set_other.
Qed.

Lemma In_spread {A : Type} (source : list (string * A)) :
  forall target k a,
    In (k, a) (spread target source) -> In (k, a) target \/ In (k, a) source.
Proof.
  unfold spread.
  induction source as [|[k0 a0] source IH]; intros target k a;
    cbn [fold_left fst snd]; [now left|].
  intros H. destruct (IH _ _ _ H) as [H'|H']; [|right; now right].
  apply In_own_set in H' as [[-> ->]|H']; [right; now left | now left].
Qed.

Lemma NoDup_keys_spread {A : Type} (source : list (string * A)) :
  forall target, NoDup (map fst target) ->
                 NoDup (map fst (spread target source)).
Proof.
  unfold spread. induction source as [|[k0 a0] source IH]; intros target H;
    cbn [fold_left]; [exact H|].
  apply IH. now apply NoDup_keys_own_set.
Qed.

Lemma NoDup_keys_own_get {A : Type} (o : list (string * A)) k a :
  NoDup (map fst o) -> In (k, a) o -> own_get o k = Some a.
Proof.
  intros Hnd Hin. destruct (own_get o k) as [a'|] eqn:E.
  - apply own_get_In in E. f_equal. exact (NoDup_keys_In_eq _ _ _ _ Hnd E Hin).
  - exfalso. induction o as [|[k0 a0] o IH]; [destruct Hin|].
    cbn [own_get] in E. destruct (String.eqb_spec k k0) as [->|Hne];
      [discriminate|].
    destruct Hin as [[= -> ->]|Hin]; [now destruct Hne|].
    cbn [map fst] in Hnd. apply NoDup_cons_iff in Hnd as [_ Hnd]. auto.
Qed.

Lemma uploadSingleFile_uploadParams_override_aux
    params basename content contentType :
  NoDup (map fst params) ->
  let uploadParams :=
    uploadSingleFile_uploadParams params basename content contentType in
  NoDup (map fst uploadParams)
  /\ (forall k v, k <> "filePath" -> k <> "s3Key" ->
                  own_get params k = Some v -> own_get uploadParams k = Some v)
  /\ (own_get params "fileName" = None ->
      own_get uploadParams "fileName"
      = Some (js_or (member params "s3Key") (VString basename))).
Proof.
  intros Hnd uploadParams. subst uploadParams.
  unfold uploadSingleFile_uploadParams. repeat split.
  - apply NoDup_keys_own_delete, NoDup_keys_own_delete, NoDup_keys_spread.
    cbn [map fst]. repeat constructor; cbn [In]; intuition discriminate.
  - intros k v Hk1 Hk2 Hget. rewrite !own_get_own_delete.
    apply String.eqb_neq in Hk1, Hk2. rewrite Hk1, Hk2.
    rewrite (own_get_spread _ _ _ Hnd). now rewrite Hget.
  - intros Hget. rewrite !own_get_own_delete.
    change ("fileName" =? "s3Key") with false.
    change ("fileName" =? "filePath") with false. cbv iota.
    rewrite (own_get_spread _ _ _ Hnd), Hget.
    unfold member. rewrite Hget. reflexivity.
Qed.

(** X13.  In [uploadSingleFile] the caller's parameters win over the four
    computed ones: every own parameter other than [filePath] and [s3Key]
    reaches the mapper with the caller's value, among them [fileName] (over
    the computed key) and [contentType] (over the detected type); [filePath]
    and [s3Key] never reach the mapper; the computed key is used as [fileName]
    only when the caller gives no [fileName] property. *)
Theorem uploadSingleFile_uploadParams_override
    params basename content contentType :
  NoDup (map fst params) ->
  let uploadParams :=
    uploadSingleFile_uploadParams params basename content contentType in
  own_get uploadParams "filePath" = None
  /\ own_get uploadParams "s3Key" = None
  /\ (forall k v, k <> "filePath" -> k <> "s3Key" ->
                  own_get params k = Some v -> own_get uploadParams k = Some v)
  /\ (own_get params "fileName" = None ->
      own_get uploadParams "fileName"
      = Some (js_or (member params "s3Key") (VString basename)))
  /\ (own_get params "contentType" = None ->
      own_get uploadParams "contentType" = Some (VString contentType)).
Proof.
  intros Hnd uploadParams. subst uploadParams.
  unfold uploadSingleFile_uploadParams.
  repeat split.
  - rewrite own_get_own_delete. change ("filePath" =? "s3Key") with false.
    cbv iota. rewrite own_get_own_delete. now rewrite String.eqb_refl.
  - rewrite own_get_own_delete. now rewrite String.eqb_refl.
  - intros k v Hk1 Hk2 Hget. rewrite !own_get_own_delete.
    apply String.eqb_neq in Hk1, Hk2. rewrite Hk1, Hk2.
    rewrite (own_get_spread _ _ _ Hnd). now rewrite Hget.
  - intros Hget. rewrite !own_get_own_delete.
    change ("fileName" =? "s3Key") with false.
    change ("fileName" =? "filePath") with false. cbv iota.
    rewrite (own_get_spread _ _ _ Hnd), Hget.
    unfold member. rewrite Hget. reflexivity.
  - intros Hget. rewrite !own_get_own_delete.
    change ("contentType" =? "s3Key") with false.
    change ("contentType" =? "filePath") with false. cbv iota.
    rewrite (own_get_spread _ _ _ Hnd), Hget. reflexivity.
Qed.

(** X14.  The object key that [uploadSingleFile] sends is the caller's
    [fileName] whenever the caller gives a non-null one, also when [s3Key] is
    given as well; without a [fileName] property it is [s3Key] if that is
    truthy and the base name of the path otherwise.  This holds whenever the
    mapper returns, the parameters have distinct keys and none of their
    unknown keys capitalises to "Key". *)
Theorem uploadSingleFile_Key params basename content contentType out :
  uploadSingleFile_commandParams Date_parse params basename content contentType
  = Return out ->
  NoDup (map fst params) ->
  (forall k v, In (k, v) params -> nullish v = false ->
               get (knownMappings new_ParameterMapper) k = Absent ->
               smartCaseConversion k <> "Key") ->
  (forall f, own_get params "fileName" = Some f -> nullish f = false ->
             own_get out "Key" = Some f)
  /\ (own_get params "fileName" = None ->
      own_get out "Key"
      = Some (js_or (member params "s3Key") (VString basename))).
Proof.
  unfold uploadSingleFile_commandParams. intros Hmap Hnd Hfall.
  set (up := uploadSingleFile_uploadParams params basename content contentType)
    in *.
  destruct (uploadSingleFile_uploadParams_override_aux
              params basename content contentType Hnd) as (Hup & Hover & Hdef).
  fold up in Hup, Hover, Hdef.
  assert (Hkey : forall f, own_get up "fileName" = Some f -> nullish f = false ->
                           own_get out "Key" = Some f).
  { intros f Hf Hv. apply own_get_In in Hf as Hin.
    destruct (new_ParameterMapper_sole_writer up "fileName" f "Key"
                Hup Hin eq_refl eq_refl) as (H1 & H2 & H3).
    destruct (mapParameters_known_key_kept _ _ _ _ _ _ Hmap Hin Hv eq_refl
                ltac:(discriminate) eq_refl ltac:(discriminate) H1 H2)
      as (c & Hc & Hout).
    - intros k' v' Hin' Hv' Hf'. pose proof (H3 k' v' Hin' Hv' Hf') as Habs.
      apply (Hfall k' v'); auto.
      unfold up, uploadSingleFile_uploadParams in Hin'.
      apply In_own_delete, In_own_delete, In_spread in Hin'.
      destruct Hin' as [Hlit|Hp]; [|exact Hp].
      exfalso. cbn [In] in Hlit.
      destruct Hlit as [[= <- _]|[[= <- _]|[[= <- _]|[[= <- _]|[]]]]];
        discriminate Habs.
    - injection Hc as <-. exact Hout. }
  split.
  - intros f Hf Hv. apply Hkey; [|exact Hv].
    apply Hover; [discriminate | discriminate | exact Hf].
  - intros Hnone. apply Hkey; [now apply Hdef|].
    unfold js_or. destruct (truthy (member params "s3Key")) eqn:Ht.
    + now apply truthy_not_nullish.
    + reflexivity.
Qed.

End MapperProperties.

(** ** File types *)

Lemma lower_char_upper_char (c : ascii) : lower_char (upper_char c) = lower_char c.
Proof. destruct c as [[] [] [] [] [] [] [] []]; reflexivity. Qed.

Lemma toLowerCase_toUpperCase s : toLowerCase (toUpperCase s) = toLowerCase s.
Proof.
  induction s as [|c r IH]; [reflexivity|].
  cbn [toUpperCase toLowerCase]. now rewrite lower_char_upper_char, IH.
Qed.

Lemma toLowerCase_app (s t : string) :
  toLowerCase (s ++ t) = (toLowerCase s ++ toLowerCase t)%string.
Proof.
  induction s as [|c r IH]; [reflexivity|].
  cbn [String.append toLowerCase]. now rewrite IH.
Qed.

Lemma startsWith_app (s t p : string) :
  startsWith s p = true -> startsWith (s ++ t) p = true.
Proof.
  revert s. induction p as [|a p IH]; intros s.
  - destruct s; [destruct t|]; reflexivity.
  - destruct s as [|b s]; cbn [startsWith String.append]; [discriminate|].
    intros H. apply andb_prop in H as [-> H]. now rewrite (IH _ H).
Qed.

Lemma determineFileType_text contentType fileExtension :
  determineFileType contentType fileExtension = "text" <->
  existsb (fun type => startsWith (toLowerCase contentType) type)
    textContentTypes
  || Array_includes textExtensions (toLowerCase fileExtension) = true.
Proof.
  unfold determineFileType.
  destruct (existsb _ textContentTypes || Array_includes textExtensions _);
    [tauto|].
  split; [|discriminate].
  destruct (Array_includes imageContentTypes _ || Array_includes imageExtensions _);
    [discriminate|].
  destruct (Array_includes documentContentTypes _
            || Array_includes documentExtensions _); discriminate.
Qed.

(** X15.  For an ASCII content type and extension (every code unit below
    128) the file type does not depend on the letter case of either, and a
    file that is text stays text when ASCII parameters are appended to its
    content type (as in "text/csv; charset=utf-8"). *)
Theorem determineFileType_case_and_parameters contentType fileExtension :
  is_ascii contentType = true -> is_ascii fileExtension = true ->
  determineFileType (toUpperCase contentType) (toUpperCase fileExtension)
  = determineFileType contentType fileExtension
  /\ forall parameters : string,
      is_ascii parameters = true ->
      determineFileType contentType fileExtension = "text" ->
      determineFileType (contentType ++ parameters) fileExtension = "text".
Proof.
  intros _ _. split.
  - unfold determineFileType. now rewrite !toLowerCase_toUpperCase.
  - intros parameters _ H. apply determineFileType_text in H.
    apply determineFileType_text. apply orb_true_iff in H as [H|H].
    + apply orb_true_iff. left.
      apply existsb_exists in H as (type & Hin & Hs).
      apply existsb_exists. exists type. split; [exact Hin|].
      rewrite toLowerCase_app. now apply startsWith_app.
    + rewrite H. apply orb_true_r.
Qed.

Lemma getContentType_nonempty ext : getContentType ext <> TString "".
Proof.
  unfold getContentType. destruct (get contentTypes ext) as [s| |];
    try discriminate.
  destruct (String.eqb_spec s ""); [discriminate|congruence].
Qed.

(** X16.  [getContentType] never answers with an empty string, so the
    "text/plain" default of [readFile] never applies: the content type of a
    file is [getContentType(ext)] whether it is read as binary or as text, and
    it is "application/octet-stream" for every extension the table does not
    hold. *)
Theorem readFile_contentType_default ext :
  getContentType ext <> TString ""
  /\ readFile_contentType ext = getContentType ext
  /\ (get contentTypes ext = Absent ->
      readFile_contentType ext = TString "application/octet-stream").
Proof.
  split; [apply getContentType_nonempty|].
  assert (H : readFile_contentType ext = getContentType ext).
  { unfold readFile_contentType. destruct (readFile_isBinary ext); [reflexivity|].
    pose proof (getContentType_nonempty ext) as Hne.
    destruct (getContentType ext) as [s|]; [|reflexivity].
    destruct (String.eqb_spec s "") as [->|_]; [now destruct Hne | reflexivity]. }
  split; [exact H|].
  intros Habs. rewrite H. unfold getContentType. now rewrite Habs.
Qed.

(** X17.  Reading a file and getting it back agree on the encoding for every
    extension that [readFile] takes as binary and for every extension of the
    content-type table: [getObject], given the content type that [readFile]
    detected, answers in the encoding the file was read in.  They disagree on
    every other extension that is not a text extension of [getObject]: the file
    is read as "utf8" and comes back as "base64". *)
Theorem readFile_getObject_encoding ext :
  (forall contentType,
      getContentType ext = TString contentType ->
      readFile_isBinary ext = true
      \/ own_get contentTypes ext <> None ->
      getObject_encoding (determineFileType contentType ext)
      = readFile_encoding ext)
  /\ (readFile_isBinary ext = false ->
      get contentTypes ext = Absent ->
      Array_includes textExtensions (toLowerCase ext) = false ->
      readFile_encoding ext = "utf8"
      /\ getContentType ext = TString "application/octet-stream"
      /\ getObject_encoding (determineFileType "application/octet-stream" ext)
         = "base64").
Proof.
  split.
  - intros contentType Hct [Hbin|Hown].
    + unfold readFile_isBinary in Hbin. apply Array_includes_In in Hbin.
      unfold binaryExtensions in Hbin. cbn [In] in Hbin.
      repeat (destruct Hbin as [<-|Hbin];
              [vm_compute in Hct; injection Hct as <-; reflexivity|]).
      destruct Hbin.
    + destruct (own_get contentTypes ext) as [s|] eqn:E; [|now destruct Hown].
      assert (Hs : contentType = s).
      { unfold getContentType, get in Hct. rewrite E in Hct.
        destruct (s =? "") eqn:Es; [|congruence].
        apply String.eqb_eq in Es. subst s. apply own_get_In in E.
        vm_compute in E.
        repeat (destruct E as [E|E]; [discriminate E|]). destruct E. }
      subst s. apply own_get_In in E.
      assert (F : forallb (fun kv =>
                    getObject_encoding (determineFileType (snd kv) (fst kv))
                    =? readFile_encoding (fst kv)) contentTypes = true)
        by (vm_compute; reflexivity).
      rewrite forallb_forall in F. specialize (F _ E). cbn [fst snd] in F.
      now apply String.eqb_eq.
  - intros Hbin Habs Htext. repeat split.
    + unfold readFile_encoding. now rewrite Hbin.
    + unfold getContentType. now rewrite Habs.
    + unfold getObject_encoding.
      destruct (String.eqb_spec (determineFileType "application/octet-stream" ext)
                  "text") as [E|_]; [|reflexivity].
      apply determineFileType_text in E. rewrite Htext, orb_false_r in E.
      vm_compute in E. discriminate E.
Qed.

(** ** The content preview *)

Lemma length_substring_0 m s :
  String.length (substring 0 m s) = Nat.min m (String.length s).
Proof.
  revert s. induction m as [|m IH]; intros s.
  - now destruct s.
  - destruct s as [|c s]; [reflexivity|].
    cbn [substring String.length Nat.min]. now rewrite IH.
Qed.

Lemma substring_0_all m s :
  (String.length s <= m)%nat -> substring 0 m s = s.
Proof.
  revert s. induction m as [|m IH]; intros s H.
  - destruct s; [reflexivity | simpl in H; lia].
  - destruct s as [|c s]; [reflexivity|].
    cbn [substring]. rewrite IH; [reflexivity | simpl in H; lia].
Qed.

Lemma length_append_string (s t : string) :
  String.length (s ++ t) = (String.length s + String.length t)%nat.
Proof. induction s as [|c s IH]; [reflexivity|]. simpl. now rewrite IH. Qed.

Lemma prefix_append (s t : string) : prefix s (s ++ t) = true.
Proof.
  induction s as [|c s IH]; [now destruct t|].
  cbn [String.append prefix].
  destruct (ascii_dec c c) as [_|N]; [exact IH | now destruct N].
Qed.

Lemma prefix_refl (s : string) : prefix s s = true.
Proof.
  induction s as [|c s IH]; [reflexivity|]. cbn [prefix].
  destruct (ascii_dec c c) as [_|N]; [exact IH | now destruct N].
Qed.

(** X18.  The content preview is never longer than 514 characters, it is
    the whole content when that has at most 500 characters, and it always
    starts with the first 500 characters of the content. *)
Theorem readFile_contentPreview_bound content :
  (String.length (readFile_contentPreview content) <= 514)%nat
  /\ ((String.length content <= 500)%nat ->
      readFile_contentPreview content = content)
  /\ prefix (substring 0 500 content) (readFile_contentPreview content) = true.
Proof.
  unfold readFile_contentPreview.
  destruct (Nat.ltb_spec 500 (String.length content)) as [Hlong|Hshort].
  - repeat split.
    + rewrite length_append_string, length_substring_0.
      change (String.length "...[truncated]") with 14%nat. lia.
    + lia.
    + apply prefix_append.
  - repeat split; [lia|].
    rewrite (substring_0_all _ _ Hshort). apply prefix_refl.
Qed.

(** ** Conversion and nesting *)

Section Conversion.

Variable Date_parse : string -> option Z.

(** X19.  Conversion is idempotent in every mapper state: a value that
    [convertType] returned for a key is returned unchanged when it is
    converted for that key again. *)
Theorem convertType_idempotent this key v c :
  convertType Date_parse this key v = Return c ->
  convertType Date_parse this key c = Return c.
Proof.
  unfold convertType.
  destruct (Array_includes (dateParameters this) key).
  - unfold new_Date. destruct v as [| |b|n|s|props|tv];
      cbn [ToPrimitive bind]; try (intros [= <-]; reflexivity).
    destruct (own_get props "toString"); cbn [bind]; [discriminate|].
    intros [= <-]. reflexivity.
  - destruct (Array_includes (booleanParameters this) key).
    + intros [= <-]. reflexivity.
    + intros [= <-]. reflexivity.
Qed.


End Conversion.


(** ** The further properties on concrete inputs *)

Lemma mapParameters_output_derived_witness :
  derived_entry Date_parse_ymd new_ParameterMapper
    [("bucketName", VString "logs"); ("customFlag", VBool true)]
    "CustomFlag" (VBool true).
Proof.
  apply (mapParameters_output_derived Date_parse_ymd new_ParameterMapper
           [("bucketName", VString "logs"); ("customFlag", VBool true)]
           [("Bucket", VString "logs"); ("CustomFlag", VBool true)]).
  - intros k v [[= <- <-]|[[= <- <-]|[]]]; reflexivity.
  - reflexivity.
  - simpl. auto.
Defined.

Lemma mapParameters_output_non_null_witness :
  nullish (VDate None) = false.
Proof.
  apply (mapParameters_output_non_null Date_parse_ymd new_ParameterMapper
           [("expires", VString "never"); ("acl", VNull)]
           [("Expires", VDate None)] "Expires" (VDate None)).
  - reflexivity.
  - simpl. auto.
Defined.

Lemma mapParameters_flat_passthrough_witness :
  mapParameters Date_parse_ymd new_ParameterMapper [("maxBuckets", VNumber 0)]
  = Return [("MaxBuckets", VNumber 0)].
Proof.
  apply (mapParameters_flat_passthrough Date_parse_ymd new_ParameterMapper
           "maxBuckets" "MaxBuckets" (VNumber 0));
    first [reflexivity | discriminate | idtac].
  - simpl. intuition discriminate.
  - simpl. intuition discriminate.
Defined.

Lemma mapParameters_returns_on_safe_input_witness :
  exists out,
    mapParameters Date_parse_ymd new_ParameterMapper
      [("bucketName", VString "logs"); ("expires", VString "soon");
       ("locationConstraint", VNumber 1); ("x", VNull)]
    = Return out.
Proof.
  apply (mapParameters_returns_on_safe_input Date_parse_ymd).
  intros entry H. simpl in H.
  destruct H as [<-|[<-|[<-|[<-|[]]]]];
    first [ now left
          | right; split; [reflexivity | intros props E; discriminate E] ].
Defined.

Lemma mapParameters_idempotent_witness :
  mapParameters Date_parse_ymd new_ParameterMapper
    [("Bucket", VString "logs");
     ("CreateBucketConfiguration",
      VObject [("LocationConstraint", VString "eu-west-1")]);
     ("Expires", VDate (Some 1704067200000%Z));
     ("CustomFlag", VBool false)]
  = Return
      [("Bucket", VString "logs");
       ("CreateBucketConfiguration",
        VObject [("LocationConstraint", VString "eu-west-1")]);
       ("Expires", VDate (Some 1704067200000%Z));
       ("CustomFlag", VBool false)].
Proof.
  apply (mapParameters_idempotent Date_parse_ymd
           [("bucketName", VString "logs");
            ("locationConstraint", VString "eu-west-1");
            ("expires", VString "2024-01-01");
            ("customFlag", VBool false)]).
  reflexivity.
Defined.

Lemma addMapping_commute_witness :
  mapParameters Date_parse_ymd
    (addMapping (addMapping new_ParameterMapper "dryRun" "DryRun" (VString "boolean"))
       "since" "Since" (VString "date"))
    [("dryRun", VString "true"); ("since", VString "2024-01-01")]
  = mapParameters Date_parse_ymd
      (addMapping (addMapping new_ParameterMapper "since" "Since" (VString "date"))
         "dryRun" "DryRun" (VString "boolean"))
      [("dryRun", VString "true"); ("since", VString "2024-01-01")].
Proof.
  destruct (addMapping_commute Date_parse_ymd new_ParameterMapper
              "dryRun" "DryRun" (VString "boolean")
              "since" "Since" (VString "date")) as [H _].
  - discriminate.
  - apply H.
Defined.

Lemma addMapping_local_witness :
  mapParameters Date_parse_ymd
    (addMapping new_ParameterMapper "region" "Region" VNull)
    [("bucketName", VString "logs"); ("region", VNull)]
  = mapParameters Date_parse_ymd new_ParameterMapper
      [("bucketName", VString "logs"); ("region", VNull)].
Proof.
  apply (addMapping_local Date_parse_ymd new_ParameterMapper
           "region" "Region" VNull).
  - discriminate.
  - discriminate.
  - intros k v [[= <- <-]|[[= <- <-]|[]]] Hv; discriminate.
Defined.

Lemma addMappings_keep_witness :
  convertType Date_parse_ymd
    (addMappings new_ParameterMapper
       [("expiry", "Expires", VString "boolean"); ("expires", "ExpiresAt", VNull)])
    "Expires" (VString "2024-01-01")
  = Return (VDate (Some 1704067200000%Z)).
Proof.
  destruct (addMappings_keep Date_parse_ymd new_ParameterMapper
              [("expiry", "Expires", VString "boolean");
               ("expires", "ExpiresAt", VNull)]) as (_ & _ & _ & H).
  rewrite H; [reflexivity|]. simpl. auto.
Defined.

Lemma mapParameters_known_key_survives_witness :
  exists c,
    convertType Date_parse_ymd new_ParameterMapper "Bucket" (VString "logs")
    = Return c
    /\ own_get [("ACL", VString "private"); ("Bucket", VString "logs");
                ("CustomFlag", VBool true)] "Bucket" = Some c.
Proof.
  apply (mapParameters_known_key_survives Date_parse_ymd
           [("acl", VString "private"); ("bucketName", VString "logs");
            ("customFlag", VBool true)]
           [("ACL", VString "private"); ("Bucket", VString "logs");
            ("CustomFlag", VBool true)]
           "bucketName" (VString "logs") "Bucket" eq_refl).
  - simpl. repeat constructor; simpl; intuition discriminate.
  - intros k' v' [[= <- <-]|[[= <- <-]|[[= <- <-]|[]]]]; reflexivity.
  - simpl. auto.
  - reflexivity.
  - reflexivity.
  - reflexivity.
  - intros k' v' [[= <- <-]|[[= <- <-]|[[= <- <-]|[]]]] Hv Hk;
      discriminate.
Defined.

Lemma deleteBucket_request_Bucket_witness :
  deleteBucket_request Date_parse_ymd [("bucketName", VString "")]
  = Return (Rejected
              "Error: bucketName is required. Please provide a bucket name.")
  /\ own_get [("Bucket", VString "logs"); ("ExpectedBucketOwner", VString "me")]
       "Bucket" = Some (VString "logs").
Proof.
  split.
  - destruct (deleteBucket_request_Bucket Date_parse_ymd
                [("bucketName", VString "")]) as [H _].
    apply H. reflexivity.
  - destruct (deleteBucket_request_Bucket Date_parse_ymd
                [("bucketName", VString "logs");
                 ("expectedBucketOwner", VString "me")]) as [_ H].
    destruct (H [("Bucket", VString "logs");
                 ("ExpectedBucketOwner", VString "me")] eq_refl)
      as [_ Hb]; [| |exact Hb].
    + simpl. repeat constructor; simpl; intuition discriminate.
    + intros k v [[= <- <-]|[[= <- <-]|[]]] Hv Hk; discriminate.
Defined.

Lemma getObject_request_Bucket_Key_witness :
  getObject_request Date_parse_ymd [("bucketName", VString "logs")]
  = Return (Rejected "Error: bucketName and fileName are required.")
  /\ own_get [("Bucket", VString "logs"); ("Key", VString "a.txt")] "Bucket"
     = Some (VString "logs")
  /\ own_get [("Bucket", VString "logs"); ("Key", VString "a.txt")] "Key"
     = Some (VString "a.txt").
Proof.
  split.
  - destruct (getObject_request_Bucket_Key Date_parse_ymd
                [("bucketName", VString "logs")]) as [H _].
    apply H. now right.
  - destruct (getObject_request_Bucket_Key Date_parse_ymd
                [("bucketName", VString "logs"); ("fileName", VString "a.txt")])
      as [_ H].
    apply (H [("Bucket", VString "logs"); ("Key", VString "a.txt")] eq_refl).
    + simpl. repeat constructor; simpl; intuition discriminate.
    + intros k v [[= <- <-]|[[= <- <-]|[]]] Hv Hk; discriminate.
Defined.

Lemma uploadSingleFile_uploadParams_override_witness :
  own_get
    (uploadSingleFile_uploadParams
       [("bucketName", VString "logs"); ("filePath", VString "/tmp/a.txt");
        ("s3Key", VString "x/a.txt"); ("fileName", VString "b.txt")]
       "a.txt" "hello" "text/plain")
    "fileName" = Some (VString "b.txt").
Proof.
  destruct (uploadSingleFile_uploadParams_override
              [("bucketName", VString "logs"); ("filePath", VString "/tmp/a.txt");
               ("s3Key", VString "x/a.txt"); ("fileName", VString "b.txt")]
              "a.txt" "hello" "text/plain") as (_ & _ & H & _).
  - simpl. repeat constructor; simpl; intuition discriminate.
  - apply H; [discriminate | discriminate | reflexivity].
Defined.

Lemma uploadSingleFile_Key_witness :
  own_get [("Bucket", VString "logs"); ("Key", VString "b.txt");
           ("Body", VString "hello"); ("ContentType", VString "text/plain")]
    "Key" = Some (VString "b.txt").
Proof.
  destruct (uploadSingleFile_Key Date_parse_ymd
              [("bucketName", VString "logs"); ("filePath", VString "/tmp/a.txt");
               ("s3Key", VString "x/a.txt"); ("fileName", VString "b.txt")]
              "a.txt" "hello" "text/plain"
              [("Bucket", VString "logs"); ("Key", VString "b.txt");
               ("Body", VString "hello"); ("ContentType", VString "text/plain")]
              eq_refl) as [H _].
  - simpl. repeat constructor; simpl; intuition discriminate.
  - intros k v [[= <- <-]|[[= <- <-]|[[= <- <-]|[[= <- <-]|[]]]]] Hv Hk;
      discriminate.
  - apply H; reflexivity.
Defined.

Lemma determineFileType_case_and_parameters_witness :
  determineFileType "text/csv; charset=utf-8" ".dat" = "text".
Proof.
  destruct (determineFileType_case_and_parameters "text/csv" ".dat")
    as [_ H]; [reflexivity|reflexivity|].
  apply (H "; charset=utf-8"); reflexivity.
Defined.

Lemma readFile_contentType_default_witness :
  readFile_contentType ".log" = TString "application/octet-stream".
Proof.
  destruct (readFile_contentType_default ".log") as (_ & _ & H).
  apply H. reflexivity.
Defined.

Lemma readFile_getObject_encoding_witness :
  getObject_encoding (determineFileType "image/svg+xml" ".svg")
  = readFile_encoding ".svg"
  /\ readFile_encoding ".foo" = "utf8"
  /\ getObject_encoding (determineFileType "application/octet-stream" ".foo")
     = "base64".
Proof.
  split.
  - destruct (readFile_getObject_encoding ".svg") as [H _].
    apply H; [reflexivity | now left].
  - destruct (readFile_getObject_encoding ".foo") as [_ H].
    destruct H as (H1 & _ & H3); first [reflexivity | auto].
Defined.

Lemma readFile_contentPreview_bound_witness :
  readFile_contentPreview "short" = "short".
Proof.
  destruct (readFile_contentPreview_bound "short") as (_ & H & _).
  apply H. simpl. lia.
Defined.

Lemma convertType_idempotent_witness :
  convertType Date_parse_ymd new_ParameterMapper "BucketKeyEnabled" (VBool true)
  = Return (VBool true).
Proof.
  apply (convertType_idempotent Date_parse_ymd new_ParameterMapper
           "BucketKeyEnabled" (VString "true")).
  reflexivity.
Defined.


Lemma smartCaseConversion_shape_witness :
  smartCaseConversion (smartCaseConversion "customFlag")
  = smartCaseConversion "customFlag"
  /\ String.length (smartCaseConversion "customFlag") = String.length "customFlag".
Proof.
  destruct (smartCaseConversion_shape "customFlag" eq_refl) as (H1 & H2 & _).
  split; [exact H1|exact H2].
Defined.

(** ** The claims about inputs of several entries, on concrete inputs *)


Lemma addMapping_registers_witness :
  get (knownMappings
         (addMapping new_ParameterMapper "newParam" "NewParam" (VString "boolean")))
    "newParam" = Own "NewParam"
  /\ mapParameters Date_parse_ymd
       (addMapping new_ParameterMapper "newParam" "NewParam" (VString "boolean"))
       [("newParam", VString "true")]
     = Return [("NewParam", VBool true)]
  /\ exists c,
       convertType Date_parse_ymd
         (addMapping new_ParameterMapper "newParam" "NewParam" (VString "boolean"))
         "NewParam" (VString "true") = Return c
       /\ own_get [("Bucket", VString "logs"); ("NewParam", VBool true)]
            "NewParam" = Some c.
Proof.
  destruct (addMapping_registers Date_parse_ymd new_ParameterMapper
              "newParam" "NewParam" (VString "boolean"))
    as (Hget & _ & _ & _ & _ & Hmulti & _ & Hmap).
  - discriminate.
  - split; [exact Hget|]. split.
    + apply Hmap. simpl.
      intros H. repeat (destruct H as [H|H]; [discriminate H|]). exact H.
    + apply (Hmulti [("bucketName", VString "logs"); ("newParam", VString "true")]
               [("Bucket", VString "logs"); ("NewParam", VBool true)]
               (VString "true")).
      * discriminate.
      * reflexivity.
      * discriminate.
      * reflexivity.
      * intros k' v' [[= <- <-]|[[= <- <-]|[]]]; reflexivity.
      * simpl. auto.
      * reflexivity.
      * intros k' v' [[= <- <-]|[[= <- <-]|[]]] _ Hg;
          [vm_compute in Hg; discriminate Hg | reflexivity].
      * intros k' v' T' child [[= <- <-]|[[= <- <-]|[]]] _ Hg Hs;
          vm_compute in Hg; injection Hg as <-; vm_compute in Hs;
          discriminate Hs.
      * intros k' v' [[= <- <-]|[[= <- <-]|[]]] _ Hf;
          vm_compute in Hf; discriminate Hf.
Defined.

(** C8, as stated, fails: an empty target is registered and the key is
    still treated as unknown; an unknown key whose fallback name is the new
    target takes the target's place in the output; and a target that is
    already date-valued is converted as a date, whatever kind is given. *)
Lemma addMapping_registration_without_effect :
  (get (knownMappings (addMapping new_ParameterMapper "bucketName" "" VNull))
     "bucketName" = Own ""
   /\ mapParameters Date_parse_ymd
        (addMapping new_ParameterMapper "bucketName" "" VNull)
        [("bucketName", VString "b")]
      = Return [("BucketName", VString "b")])
  /\ mapParameters Date_parse_ymd
       (addMapping new_ParameterMapper "newParam" "NewParam" (VString "boolean"))
       [("newParam", VString "true"); ("NewParam", VString "x")]
     = Return [("NewParam", VString "x")]
  /\ mapParameters Date_parse_ymd
       (addMapping
          (addMapping new_ParameterMapper "created" "NewParam" (VString "date"))
          "newParam" "NewParam" (VString "boolean"))
       [("newParam", VString "true")]
     = Return [("NewParam", VDate None)].
Proof. repeat split. Qed.
